(** * film_api: the cached film list, film detail, comment creation and sync

    A shallow embedding of [film/views.py], [film/models.py],
    [film/serializers.py], [film/apps.py] and
    [film/management/commands/sync_films.py].

    Conventions of the model:
    - a Python [str] is a [string] whose characters are the code points
      below 256; [len] is [String.length];
    - a date is its proleptic ordinal ([date.toordinal()]), a timestamp is a
      number of seconds; both are [Z];
    - the relational store is three tables held as lists of rows in
      insertion order; every query may fail with a database error, which is
      decided by an oracle carried in the world ([faults]); integers and
      texts are stored and looked up whatever their size;
    - the Django cache is a finite map from keys to a payload and its expiry
      time; its operations do not fail;
    - handlers are computations in a state-and-exception monad [M]; what
      they [print] is left out. *)

From Stdlib Require Import Ascii.
From stdpp Require Import gmap strings list pretty sorting.

Open Scope string_scope.
Open Scope Z_scope.

(** ** Python values and the builtins the handlers call *)

Module Py.

(** A [float] that is finite is the dyadic rational [m * 2^e]. *)
Inductive float :=
| Finite (m e : Z)
| Inf (negative : bool)
| NaN.

(** What a parsed JSON body (or a form) can hold under a key. *)
#[warnings="-register-all"]
Inductive value :=
| None_
| Bool (b : bool)
| Int (z : Z)
| Float (f : float)
| Str (s : string)
| List (l : list value)
| Dict (d : list (string * value)).

(** [bool(v)]: what [if not v] tests. *)
Definition truthy (v : value) : bool :=
  match v with
  | None_ => false
  | Bool b => b
  | Int z => negb (z =? 0)
  | Float (Finite m _) => negb (m =? 0)
  | Float _ => true
  | Str s => negb (String.eqb s "")
  | List l => match l with [] => false | _ => true end
  | Dict d => match d with [] => false | _ => true end
  end.

(** [str.isspace] on the code points below 256. *)
Definition isspace (c : ascii) : bool :=
  let n := nat_of_ascii c in
  ((9 <=? n) && (n <=? 13) || (28 <=? n) && (n <=? 32)
   || (n =? 133) || (n =? 160))%nat.

Fixpoint lstrip (s : string) : string :=
  match s with
  | EmptyString => EmptyString
  | String c s' => if isspace c then lstrip s' else s
  end.

Fixpoint rstrip (s : string) : string :=
  match s with
  | EmptyString => EmptyString
  | String c s' =>
      match rstrip s' with
      | EmptyString => if isspace c then EmptyString else String c EmptyString
      | r => String c r
      end
  end.

(** Every character of [s] is whitespace. *)
Fixpoint all_space (s : string) : bool :=
  match s with
  | EmptyString => true
  | String c s' => isspace c && all_space s'
  end.

(** [s.strip()] *)
Definition strip (s : string) : string := rstrip (lstrip s).

Definition digit (c : ascii) : option Z :=
  let n := nat_of_ascii c in
  if ((48 <=? n) && (n <=? 57))%nat then Some (Z.of_nat n - 48) else None.

(** The digits of a decimal literal after its first digit: a single
    underscore may separate two digits. *)
Fixpoint digits (acc : Z) (s : string) : option Z :=
  match s with
  | EmptyString => Some acc
  | String c s' =>
      match digit c with
      | Some d => digits (10 * acc + d) s'
      | None =>
          if Ascii.eqb c "_"%char then
            match s' with
            | String c2 s'' =>
                match digit c2 with
                | Some d => digits (10 * acc + d) s''
                | None => None
                end
            | EmptyString => None
            end
          else None
      end
  end.

Definition unsigned (s : string) : option Z :=
  match s with
  | String c s' => match digit c with Some d => digits d s' | None => None end
  | EmptyString => None
  end.

(** The white space that [int] skips around a literal: tab to carriage
    return and the space, and above them what [str.isspace] accepts. The
    separators U+001C to U+001F, which [str.strip] removes, are not
    skipped. *)
Definition int_space (c : ascii) : bool :=
  let n := nat_of_ascii c in
  ((9 <=? n) && (n <=? 13) || (n =? 32) || (n =? 133) || (n =? 160))%nat.

Fixpoint skip_left (s : string) : string :=
  match s with
  | EmptyString => EmptyString
  | String c s' => if int_space c then skip_left s' else s
  end.

Fixpoint skip_right (s : string) : string :=
  match s with
  | EmptyString => EmptyString
  | String c s' =>
      match skip_right s' with
      | EmptyString => if int_space c then EmptyString else String c EmptyString
      | r => String c r
      end
  end.

(** The number of digits of a literal, its leading zeros counted. *)
Fixpoint count_digits (s : string) : nat :=
  match s with
  | EmptyString => 0
  | String c s' =>
      ((match digit c with Some _ => 1 | None => 0 end) + count_digits s')%nat
  end.

(** [sys.get_int_max_str_digits()], at its default. *)
Definition MAX_STR_DIGITS : nat := 4300.

(** [int(s)] for a [str]: surrounding white space, an optional sign, a
    decimal literal of at most [MAX_STR_DIGITS] digits. [None] is
    [ValueError]. *)
Definition int_of_str (s : string) : option Z :=
  let s := skip_right (skip_left s) in
  if (MAX_STR_DIGITS <? count_digits s)%nat then None
  else
    match s with
    | String "-" s' => Z.opp <$> unsigned s'
    | String "+" s' => unsigned s'
    | s' => unsigned s'
    end.

Inductive error := ValueError | TypeError | OverflowError.

#[global] Instance error_eq_dec : EqDecision error.
Proof. solve_decision. Defined.

(** [int(v)] *)
Definition int (v : value) : error + Z :=
  match v with
  | Int z => inr z
  | Bool b => inr (if b then 1 else 0)
  | Float (Finite m e) =>
      inr (if 0 <=? e then m * 2 ^ e else Z.quot m (2 ^ (- e)))
  | Float (Inf _) => inl OverflowError
  | Float NaN => inl ValueError
  | Str s => match int_of_str s with Some z => inr z | None => inl ValueError end
  | None_ | List _ | Dict _ => inl TypeError
  end.

(** [str(v)]; the text Python prints for a float, a list or a dict is
    taken from [repr]. *)
Definition str (repr : value → string) (v : value) : string :=
  match v with
  | Str s => s
  | Int z => pretty z
  | Bool b => if b then "True" else "False"
  | None_ => "None"
  | _ => repr v
  end.

End Py.

(** ** Exceptions *)

Inductive ExnKind :=
| DoesNotExist
| MultipleObjectsReturned
| DatabaseError
| IntegrityError
| PyError (e : Py.error).

#[global] Instance ExnKind_eq_dec : EqDecision ExnKind.
Proof. solve_decision. Defined.

Record Exn := mkExn { exn_kind : ExnKind; exn_msg : string }.

(** ** film/models.py *)

Module Film.
Record t := mk {
  id : Z;
  title : string;
  release_date : Z;
  comment_count : Z
}.
End Film.

Module FilmCache.
Record t := mk {
  id : Z;
  film_id : string;
  title : string;
  release_date : Z;
  last_synced_at : Z
}.
End FilmCache.

Module Comments.
Record t := mk {
  id : Z;
  film : Z;
  comment : string;
  created_at : Z
}.
End Comments.

(** The three tables and the two primary-key sequences that the code
    advances. *)
Record Store := mkStore {
  films : list Film.t;
  film_caches : list FilmCache.t;
  comments : list Comments.t;
  film_cache_seq : Z;
  comments_seq : Z
}.

(** ** film/serializers.py: the payloads *)

(** [FilmSerializer]: the four fields of the dict it is given. *)
Record FilmView := mkFilmView {
  fv_id : Z;
  fv_title : string;
  fv_release_date : Z;
  fv_comment_count : Z
}.

(** [CommentSerializer]: [fields = ['id', 'comment', 'created_at',
    'film_title']], the last one read through [film.title]. *)
Record CommentView := mkCommentView {
  cv_id : Z;
  cv_comment : string;
  cv_created_at : Z;
  cv_film_title : string
}.

Inductive Payload :=
| FilmListData (l : list FilmView)
| FilmData (v : FilmView)
| CommentData (c : CommentView)
| ErrorData (error detail : string).

Record Response := mkResponse { data : Payload; status : Z }.

Definition HTTP_200_OK : Z := 200.
Definition HTTP_201_CREATED : Z := 201.
Definition HTTP_400_BAD_REQUEST : Z := 400.
Definition HTTP_404_NOT_FOUND : Z := 404.
Definition HTTP_500_INTERNAL_SERVER_ERROR : Z := 500.

(** ** The world a handler runs in *)

(** The statements sent to the store, as they are logged. *)
Inductive Query :=
| SelectFilmCaches
| ExistsFilmCaches
| GetFilmCache (film_id : string)
| FirstFilmByTitle (title : string)
| CountComments (film : Z)
| GetFilm (id : Z)
| InsertComment (film : Z)
| SaveFilmCache (film_id : string).

Record World := mkWorld {
  db : Store;
  cache : gmap string (Payload * Z);
  now : Z;
  faults : list (option string);
  queries : list Query
}.

Inductive result (A : Type) :=
| Ok (a : A)
| Raise (e : Exn).
Arguments Ok {A} a.
Arguments Raise {A} e.

Definition M (A : Type) : Type := World → result A * World.

#[global] Instance M_ret : MRet M := λ A a w, (Ok a, w).

#[global] Instance M_bind : MBind M := λ A B k m w,
  match m w with
  | (Ok a, w') => k a w'
  | (Raise e, w') => (Raise e, w')
  end.

Definition raise {A} (e : Exn) : M A := λ w, (Raise e, w).

(** [try: m except Exception as e: h e] *)
Definition try_except {A} (m : M A) (h : Exn → M A) : M A := λ w,
  match m w with
  | (Ok a, w') => (Ok a, w')
  | (Raise e, w') => h e w'
  end.

(** [for x in xs: acc.append(f x)] *)
Fixpoint for_each {A B} (f : A → M B) (xs : list A) : M (list B) :=
  match xs with
  | [] => mret []
  | x :: xs' => y ← f x; ys ← for_each f xs'; mret (y :: ys)
  end.

(** One statement sent to the store: it is logged, it consumes one answer
    of the oracle, and it either fails with that answer or runs on the
    tables. *)
Definition execute {A} (q : Query) (f : Store → result A * Store) : M A := λ w,
  match faults w with
  | Some msg :: rest =>
      (Raise (mkExn DatabaseError msg),
       mkWorld (db w) (cache w) (now w) rest (queries w ++ [q]))
  | rest =>
      let '(r, s) := f (db w) in
      (r, mkWorld s (cache w) (now w) (tail rest) (queries w ++ [q]))
  end.

(** *** django.core.cache *)

(** The three calls of Django's cache API that the handlers make, as its
    backends behave: an entry set with a timeout is returned until its
    expiry time has come, [cache.get] of a missing or expired key returns
    [None], [cache.delete] removes the entry. *)

Definition cache_get (key : string) : M (option Payload) := λ w,
  (Ok (match cache w !! key with
       | Some (v, expiry) => if now w <? expiry then Some v else None
       | None => None
       end), w).

Definition cache_set (key : string) (v : Payload) (timeout : Z) : M unit := λ w,
  (Ok (), mkWorld (db w) (<[key := (v, now w + timeout)]> (cache w)) (now w)
                  (faults w) (queries w)).

Definition cache_delete (key : string) : M unit := λ w,
  (Ok (), mkWorld (db w) (delete key (cache w)) (now w) (faults w) (queries w)).

Definition timezone_now : M Z := λ w, (Ok (now w), w).

(** ** The ORM calls of the handlers *)

(** [Model.objects.get(...)] on the rows that match. *)
Definition get_one {A} (model : string) (rows : list A) : result A :=
  match rows with
  | [] => Raise (mkExn DoesNotExist (model +:+ " matching query does not exist."))
  | [x] => Ok x
  | _ => Raise (mkExn MultipleObjectsReturned
                  ("get() returned more than one " +:+ model))
  end.

(** [ORDER BY]: the rows in ascending order of [R], the rows that [R]
    does not tell apart in the order of the table (a stable insertion:
    every row is put before the first row that is not below it). *)
Fixpoint insert_row {A} (R : relation A) `{∀ x y, Decision (R x y)}
    (x : A) (l : list A) : list A :=
  match l with
  | [] => [x]
  | y :: l' => if decide (R x y) then x :: l else y :: insert_row R x l'
  end.

Definition order_by {A} (R : relation A) `{∀ x y, Decision (R x y)}
    (l : list A) : list A :=
  foldr (insert_row R) [] l.
#[global] Arguments order_by : simpl never.

Definition by_release_date (a b : FilmCache.t) : Prop :=
  FilmCache.release_date a ≤ FilmCache.release_date b.

#[global] Instance by_release_date_dec a b : Decision (by_release_date a b).
Proof. unfold by_release_date. apply _. Defined.

Definition by_pk (a b : Film.t) : Prop := Film.id a ≤ Film.id b.

#[global] Instance by_pk_dec a b : Decision (by_pk a b).
Proof. unfold by_pk. apply _. Defined.

(** [FilmCache.objects.all().order_by('release_date')], evaluated. *)
Definition FilmCache_all_order_by_release_date : M (list FilmCache.t) :=
  execute SelectFilmCaches
    (λ s, (Ok (order_by by_release_date (film_caches s)), s)).

(** [films.exists()] *)
Definition FilmCache_exists : M bool :=
  execute ExistsFilmCaches
    (λ s, (Ok (match film_caches s with [] => false | _ => true end), s)).

Definition with_film_id (film_id : string) (rows : list FilmCache.t)
  : list FilmCache.t :=
  filter (λ r, FilmCache.film_id r = film_id) rows.

(** [FilmCache.objects.get(film_id=film_id)] *)
Definition FilmCache_get (film_id : string) : M FilmCache.t :=
  execute (GetFilmCache film_id)
    (λ s, (get_one "FilmCache" (with_film_id film_id (film_caches s)), s)).

Definition with_title (title : string) (rows : list Film.t) : list Film.t :=
  filter (λ f, Film.title f = title) rows.

(** [Film.objects.filter(title=title).first()]: an unordered queryset is
    ordered by primary key before its first row is taken. *)
Definition first_film (title : string) (s : Store) : option Film.t :=
  head (order_by by_pk (with_title title (films s))).

Definition Film_filter_title_first (title : string) : M (option Film.t) :=
  execute (FirstFilmByTitle title) (λ s, (Ok (first_film title s), s)).

Definition of_film (film : Z) (rows : list Comments.t) : list Comments.t :=
  filter (λ c, Comments.film c = film) rows.

(** [Comments.objects.filter(film=film_record).count()] *)
Definition Comments_filter_film_count (film : Z) : M Z :=
  execute (CountComments film)
    (λ s, (Ok (Z.of_nat (length (of_film film (comments s)))), s)).

(** [Film.objects.get(id=id)]. The statement is sent for every integer:
    the range of the key column, outside of which Django answers
    [DoesNotExist] without asking the store, is not modelled. *)
Definition Film_get (id : Z) : M Film.t :=
  execute (GetFilm id)
    (λ s, (get_one "Film" (filter (λ f, Film.id f = id) (films s)), s)).

(** [Comments.objects.create(film=film, comment=comment)]: [created_at] is
    [auto_now_add], the key comes from the sequence. *)
Definition Comments_create (film : Film.t) (comment : string) : M Comments.t :=
  t ← timezone_now;
  execute (InsertComment (Film.id film))
    (λ s, let row := Comments.mk (comments_seq s + 1) (Film.id film) comment t in
          (Ok row,
           mkStore (films s) (film_caches s) (comments s ++ [row])
                   (film_cache_seq s) (comments_seq s + 1))).

Definition replace_row (row : FilmCache.t) (rows : list FilmCache.t)
  : list FilmCache.t :=
  (λ r, if decide (FilmCache.id r = FilmCache.id row) then row else r) <$> rows.

(** [FilmCache.objects.update_or_create(film_id=film_id, defaults={'title':
    title, 'release_date': release_date})]: a [get] by [film_id], then an
    [UPDATE] of the row found or an [INSERT] of a new one; [last_synced_at]
    is [auto_now]. Both columns are [NOT NULL]: a missing value makes the
    write fail. *)
Definition FilmCache_update_or_create (film_id : string)
    (title : option string) (release_date : option Z) : M (FilmCache.t * bool) :=
  found ← execute (GetFilmCache film_id)
    (λ s, (match with_film_id film_id (film_caches s) with
           | [] => Ok None
           | [x] => Ok (Some x)
           | _ => Raise (mkExn MultipleObjectsReturned
                           "get() returned more than one FilmCache")
           end, s));
  t ← timezone_now;
  execute (SaveFilmCache film_id)
    (λ s, match title, release_date with
          | Some title, Some release_date =>
              match found with
              | Some old =>
                  let row := FilmCache.mk (FilmCache.id old) film_id title
                                          release_date t in
                  (Ok (row, false),
                   mkStore (films s) (replace_row row (film_caches s))
                           (comments s) (film_cache_seq s) (comments_seq s))
              | None =>
                  let row := FilmCache.mk (film_cache_seq s + 1) film_id title
                                          release_date t in
                  (Ok (row, true),
                   mkStore (films s) (film_caches s ++ [row]) (comments s)
                           (film_cache_seq s + 1) (comments_seq s))
              end
          | _, _ =>
              (Raise (mkExn IntegrityError "NOT NULL constraint failed"), s)
          end).

(** ** film/views.py *)

Definition FILMS_CACHE_KEY : string := "films_list".
Definition CACHE_TTL : Z := 60 * 10.

Record Request := mkRequest {
  request_data : gmap string Py.value;
  is_staff : bool
}.

(** [str(e) if request.user.is_staff else 'Internal server error'] *)
Definition error_detail (request : Request) (e : Exn) : string :=
  if is_staff request then exn_msg e else "Internal server error".

(** The block that [FilmsListView.get], [FilmDetailView.get] and
    [FilmConfig.ready] each run for one catalog row:
<<
    comment_count = 0
    try:
        film_record = Film.objects.filter(title=film.title).first()
        if film_record:
            comment_count = Comments.objects.filter(film=film_record).count()
    except Exception as e:
        print(f'Error counting comments: {e}')
>> *)
Definition count_comments (title : string) : M Z :=
  film_record ← Film_filter_title_first title;
  match film_record with
  | Some film_record => Comments_filter_film_count (Film.id film_record)
  | None => mret 0
  end.

Definition comment_count_for (title : string) : M Z :=
  try_except (count_comments title) (λ _, mret 0).

Definition film_view (film : FilmCache.t) : M FilmView :=
  comment_count ← comment_count_for (FilmCache.title film);
  mret (mkFilmView (FilmCache.id film) (FilmCache.title film)
                   (FilmCache.release_date film) comment_count).

(** [FilmsListView.get] *)
Definition FilmsListView_get (request : Request) : M Response :=
  try_except
    (cached_data ← cache_get FILMS_CACHE_KEY;
     match cached_data with
     | Some cached_data => mret (mkResponse cached_data HTTP_200_OK)
     | None =>
         films ← FilmCache_all_order_by_release_date;
         films_data ← for_each film_view films;
         let response_data := FilmListData films_data in
         cache_set FILMS_CACHE_KEY response_data CACHE_TTL;;
         mret (mkResponse response_data HTTP_200_OK)
     end)
    (λ e, mret (mkResponse
                  (ErrorData "An error occurred while fetching films"
                             (error_detail request e))
                  HTTP_500_INTERNAL_SERVER_ERROR)).

Definition quote : string := String (ascii_of_nat 34) EmptyString.

(** The key [f'film_{film_id}']. *)
Definition film_cache_key (film_id : Z) : string := "film_" +:+ pretty film_id.

(** [try: m except E: h], for one exception class. *)
Definition try_except_kind {A} (k : ExnKind) (m : M A) (h : M A) : M A :=
  try_except m (λ e, if decide (exn_kind e = k) then h else raise e).

Definition not_found (detail : string) : Response :=
  mkResponse (ErrorData "Film not found" detail) HTTP_404_NOT_FOUND.

Definition validation_error (detail : string) : Response :=
  mkResponse (ErrorData "Validation error" detail) HTTP_400_BAD_REQUEST.

(** [FilmDetailView.get]; [film_id] is the integer the URL converter
    passes. The lookup compares the [CharField] with [str(film_id)]. *)
Definition FilmDetailView_get (request : Request) (film_id : Z) : M Response :=
  try_except
    (let cache_key := film_cache_key film_id in
     cached_data ← cache_get cache_key;
     match cached_data with
     | Some cached_data => mret (mkResponse cached_data HTTP_200_OK)
     | None =>
         found ← try_except_kind DoesNotExist
                   (film ← FilmCache_get (pretty film_id); mret (Some film))
                   (mret None);
         match found with
         | None =>
             mret (not_found ("Film with ID " +:+ quote +:+ pretty film_id
                              +:+ quote +:+ " does not exist"))
         | Some film =>
             film_data ← film_view film;
             let response_data := FilmData film_data in
             cache_set cache_key response_data CACHE_TTL;;
             mret (mkResponse response_data HTTP_200_OK)
         end
     end)
    (λ e, mret (mkResponse
                  (ErrorData "An error occurred while fetching film details"
                             (error_detail request e))
                  HTTP_500_INTERNAL_SERVER_ERROR)).

(** [request.data.get(key)] *)
Definition data_get (request : Request) (key : string) : Py.value :=
  default Py.None_ (request_data request !! key).

Section Handlers.

(** What [str] prints for the values whose text is not modelled. *)
Variable repr : Py.value → string.

(** [CommentCreateView.post] *)
Definition CommentCreateView_post (request : Request) : M Response :=
  try_except
    (let film_id := data_get request "film" in
     if negb (Py.truthy film_id) then
       mret (validation_error "film ID is required")
     else
       match Py.int film_id with
       | inl Py.OverflowError =>
           raise (mkExn (PyError Py.OverflowError)
                        "cannot convert float infinity to integer")
       | inl _ => mret (validation_error "film ID must be a valid integer")
       | inr film_id =>
           found ← try_except_kind DoesNotExist
                     (film ← Film_get film_id; mret (Some film))
                     (mret None);
           match found with
           | None =>
               mret (not_found ("Film with ID " +:+ pretty film_id
                                +:+ " does not exist"))
           | Some film =>
               let comment_text := data_get request "comment" in
               if negb (Py.truthy comment_text) then
                 mret (validation_error "comment text is required")
               else
                 let comment_text := Py.strip (Py.str repr comment_text) in
                 if String.eqb comment_text "" then
                   mret (validation_error
                           "comment cannot be empty or whitespace only")
                 else if 500 <? Z.of_nat (String.length comment_text) then
                   mret (validation_error
                           ("Comment cannot exceed 500 characters (current: "
                            +:+ pretty (String.length comment_text) +:+ ")"))
                 else
                   comment ← Comments_create film comment_text;
                   cache_delete FILMS_CACHE_KEY;;
                   mret (mkResponse
                           (CommentData
                              (mkCommentView (Comments.id comment)
                                 (Comments.comment comment)
                                 (Comments.created_at comment)
                                 (Film.title film)))
                           HTTP_201_CREATED)
           end
       end)
    (λ e, mret (mkResponse
                  (ErrorData "An error occurred while creating the comment"
                             (error_detail request e))
                  HTTP_500_INTERNAL_SERVER_ERROR)).

(** ** film/apps.py *)

(** [FilmConfig.ready]; [run_main] is [os.environ.get('RUN_MAIN') ==
    'true']. *)
Definition FilmConfig_ready (run_main : bool) : M unit :=
  if run_main then
    try_except
      (let cache_key := "films_list" in
       cached_data ← cache_get cache_key;
       match cached_data with
       | None =>
           nonempty ← FilmCache_exists;
           if (nonempty : bool) then
             films ← FilmCache_all_order_by_release_date;
             films_data ← for_each film_view films;
             cache_set cache_key (FilmListData films_data) (60 * 10)
           else mret ()
       | Some _ => mret ()
       end)
      (λ _, mret ())
  else mret ().

(** ** film/management/commands/sync_films.py *)

(** One dict of the list that [getfilms] returns: [film.get('title')] and
    [film.get('release_date')], [None] when the remote record lacks the
    field. A date is the one that the text of the record denotes; a record
    whose text denotes no date (the write then raises a validation error)
    has no counterpart here. *)
Record RemoteFilm := mkRemoteFilm {
  rf_title : option string;
  rf_release_date : option Z
}.

Definition newline : string := String (ascii_of_nat 10) EmptyString.

(** The [for film_data in films_data] loop of [handle], with its three
    counters and the lines written so far. *)
Fixpoint sync_loop (films_data : list RemoteFilm)
    (synced_count updated_count created_count : Z) (out : list string)
  : M (Z * Z * Z * list string) :=
  match films_data with
  | [] => mret (synced_count, updated_count, created_count, out)
  | film_data :: rest =>
      let film_id := pretty (synced_count + 1) in
      r ← FilmCache_update_or_create film_id (rf_title film_data)
            (rf_release_date film_data);
      let '(film_cache, created) := (r : FilmCache.t * bool) in
      sync_loop rest (synced_count + 1)
        (if created then updated_count else updated_count + 1)
        (if created then created_count + 1 else created_count)
        (out ++ ["  " +:+ (if created then "Created" else "Updated") +:+ ": "
                 +:+ FilmCache.title film_cache])%list
  end.

(** [Command.handle]; its argument is what [getfilms(swapi_url)] returned,
    its result the lines written to [self.stdout]. *)
Definition Command_handle (films_data : string + list RemoteFilm)
  : M (list string) :=
  match films_data with
  | inl message =>
      mret ["Starting film sync..."; "Failed to fetch films: " +:+ message]
  | inr films_data =>
      r ← sync_loop films_data 0 0 0 ["Starting film sync..."];
      let '(synced_count, updated_count, created_count, out) :=
        (r : Z * Z * Z * list string) in
      let cache_key := "films_list" in
      cache_delete cache_key;;
      mret (out ++ ["Invalidated cache key: " +:+ cache_key;
                    newline +:+ "Sync complete! Total: " +:+ pretty synced_count
                    +:+ ", Created: " +:+ pretty created_count
                    +:+ ", Updated: " +:+ pretty updated_count])%list
  end.

(** ** The runs of the service *)

(** One thing that happens to the world: a request is served, the process
    starts, the operator syncs, or the environment moves on (time passes,
    the tables are edited through the admin site, the store goes down or
    comes back) without touching the cache. *)
Inductive step : World → World → Prop :=
| step_list request w r w' :
    FilmsListView_get request w = (r, w') → step w w'
| step_detail request film_id w r w' :
    FilmDetailView_get request film_id w = (r, w') → step w w'
| step_post request w r w' :
    CommentCreateView_post request w = (r, w') → step w w'
| step_ready run_main w r w' :
    FilmConfig_ready run_main w = (r, w') → step w w'
| step_sync films_data w r w' :
    Command_handle films_data w = (r, w') → step w w'
| step_env w w' :
    cache w' = cache w → now w ≤ now w' → step w w'.

(** The worlds that a run reaches from a process whose cache is empty. *)
Inductive reachable : World → Prop :=
| reachable_init w : cache w = ∅ → reachable w
| reachable_step w w' : reachable w → step w w' → reachable w'.

(** ** The properties in the words of the specification *)

(** The list is sorted ascending by release date. *)
Definition sorted_by_release_date (l : list FilmView) : Prop :=
  StronglySorted (λ a b, fv_release_date a ≤ fv_release_date b) l.

(** What [count_comments] returns over a store that answers: the result of
    its two queries. *)
Definition comment_total (s : Store) (title : string) : Z :=
  match first_film title s with
  | Some film => Z.of_nat (length (of_film (Film.id film) (comments s)))
  | None => 0
  end.

(** What [film_view] returns over a store that answers. *)
Definition view_of (s : Store) (film : FilmCache.t) : FilmView :=
  mkFilmView (FilmCache.id film) (FilmCache.title film)
             (FilmCache.release_date film)
             (comment_total s (FilmCache.title film)).

(** The film list that the handlers compute from a store that answers. *)
Definition films_list_of (s : Store) : list FilmView :=
  view_of s <$> order_by by_release_date (film_caches s).

(** *** The comment count of a title, in the words of the specification *)

(** [film] is the first local film whose title is [title]: a local film
    with exactly this title, and no local film with this title has a lower
    primary key. *)
Definition first_match (s : Store) (title : string) (film : Film.t) : Prop :=
  film ∈ films s ∧ Film.title film = title ∧
  ∀ other, other ∈ films s → Film.title other = title →
           Film.id film ≤ Film.id other.

(** No local film has the title. *)
Definition no_match (s : Store) (title : string) : Prop :=
  ∀ film, film ∈ films s → Film.title film ≠ title.

(** The number of comments of the film with this primary key. *)
Fixpoint number_of_comments (film : Z) (rows : list Comments.t) : Z :=
  match rows with
  | [] => 0
  | c :: rows =>
      (if decide (Comments.film c = film) then 1 else 0)
      + number_of_comments film rows
  end.

(** [n] is the comment count of the title: the number of comments of its
    first local film, and zero when no local film has the title. *)
Definition resolved_count (s : Store) (title : string) (n : Z) : Prop :=
  (∃ film, first_match s title film ∧
           n = number_of_comments (Film.id film) (comments s)) ∨
  (no_match s title ∧ n = 0).

(** The list reflects the comments of the film: it has a view with the
    film's title that shows the number of comments of the film. *)
Definition reflects_comments_of (s : Store) (film : Film.t)
    (l : list FilmView) : Prop :=
  ∃ v, v ∈ l ∧ fv_title v = Film.title film ∧
       fv_comment_count v = number_of_comments (Film.id film) (comments s).

(** The view of a catalog row that shows the comment count [n]. *)
Definition view_with (row : FilmCache.t) (n : Z) : FilmView :=
  mkFilmView (FilmCache.id row) (FilmCache.title row)
             (FilmCache.release_date row) n.

(** *** The store and the cache *)

(** The unique constraint on [FilmCache.film_id]. *)
Definition unique_film_ids (s : Store) : Prop :=
  NoDup (FilmCache.film_id <$> film_caches s).

(** The value a key holds at this moment, expired entries left out. *)
Definition cached (key : string) (w : World) : option Payload :=
  match cache w !! key with
  | Some (v, expiry) => if now w <? expiry then Some v else None
  | None => None
  end.

Definition is_validation_error (r : Response) : Prop :=
  status r = HTTP_400_BAD_REQUEST ∧
  ∃ detail, data r = ErrorData "Validation error" detail.

Definition is_not_found (r : Response) : Prop :=
  status r = HTTP_404_NOT_FOUND ∧
  ∃ detail, data r = ErrorData "Film not found" detail.

(** The next statement sent to the store fails. *)
Definition fails_next (w : World) : bool :=
  match faults w with
  | Some _ :: _ => true
  | _ => false
  end.

(** No statement sent to the store fails from here on. *)
Definition store_up (w : World) : Prop := faults w = [].

(** What the database guarantees of the catalog table: [film_id] is
    unique, the primary key is unique and was drawn from the sequence. *)
Definition catalog_ok (s : Store) : Prop :=
  unique_film_ids s ∧
  NoDup (FilmCache.id <$> film_caches s) ∧
  Forall (λ r, FilmCache.id r ≤ film_cache_seq s) (film_caches s).

(** The remote record carries both fields. *)
Definition complete (r : RemoteFilm) : Prop :=
  is_Some (rf_title r) ∧ is_Some (rf_release_date r).

(** The films-list entry of the cache, when there is one, is a film list
    sorted by release date. *)
Definition list_entry_sorted (w : World) : Prop :=
  ∀ v expiry, cache w !! FILMS_CACHE_KEY = Some (v, expiry) →
    ∃ l, v = FilmListData l ∧ sorted_by_release_date l.

(** The rows and the views built from them, one for one. *)
Definition views_of_rows (s : Store) (rows : list FilmCache.t)
    (l : list FilmView) : Prop :=
  Forall2 (λ film v,
             fv_id v = FilmCache.id film ∧ fv_title v = FilmCache.title film ∧
             fv_release_date v = FilmCache.release_date film ∧
             (fv_comment_count v = comment_total s (FilmCache.title film) ∨
              fv_comment_count v = 0)) rows l.

(** Unfold the returns and raises of a run. *)
Ltac mred := unfold mret, M_ret, raise in *; simplify_eq/=.

(** ** How the handlers end *)

(** The world after a statement was sent and took its answer. *)
Definition after_query (q : Query) (w : World) : World :=
  mkWorld (db w) (cache w) (now w) (tail (faults w)) (queries w ++ [q]).

Definition server_error (error detail : string) : Response :=
  mkResponse (ErrorData error detail) HTTP_500_INTERNAL_SERVER_ERROR.

(** The film field passes its checks and the store returns its film. *)
Definition film_resolves (request : Request) (w : World) (film : Film.t) : Prop :=
  Py.truthy (data_get request "film") = true ∧
  Py.int (data_get request "film") = inr (Film.id film) ∧
  fails_next w = false ∧
  filter (λ f, Film.id f = Film.id film) (films (db w)) = [film].

(** The text that [post] would store. *)
Definition comment_text_of (request : Request) : string :=
  Py.strip (Py.str repr (data_get request "comment")).

(** The row that [post] inserts and the world it leaves. *)
Definition new_comment (request : Request) (w : World) (film : Film.t)
  : Comments.t :=
  Comments.mk (comments_seq (db w) + 1) (Film.id film)
              (comment_text_of request) (now w).

Definition with_comment (row : Comments.t) (q : list Query) (w : World) : World :=
  mkWorld (mkStore (films (db w)) (film_caches (db w)) (comments (db w) ++ [row])
                   (film_cache_seq (db w)) (comments_seq (db w) + 1))
          (delete FILMS_CACHE_KEY (cache w)) (now w)
          (tail (tail (faults w))) (queries w ++ q).

(** The ways [CommentCreateView.post] ends. *)
Inductive post_outcome (request : Request) (w : World)
  : Response → World → Prop :=
| post_film_required :
    Py.truthy (data_get request "film") = false →
    post_outcome request w (validation_error "film ID is required") w
| post_film_invalid e :
    Py.truthy (data_get request "film") = true →
    Py.int (data_get request "film") = inl e → e ≠ Py.OverflowError →
    post_outcome request w
      (validation_error "film ID must be a valid integer") w
| post_film_overflow detail :
    Py.truthy (data_get request "film") = true →
    Py.int (data_get request "film") = inl Py.OverflowError →
    post_outcome request w
      (server_error "An error occurred while creating the comment" detail) w
| post_film_unknown film_id :
    Py.truthy (data_get request "film") = true →
    Py.int (data_get request "film") = inr film_id →
    fails_next w = false →
    filter (λ f, Film.id f = film_id) (films (db w)) = [] →
    post_outcome request w
      (not_found ("Film with ID " +:+ pretty film_id +:+ " does not exist"))
      (after_query (GetFilm film_id) w)
| post_film_error film_id detail :
    Py.truthy (data_get request "film") = true →
    Py.int (data_get request "film") = inr film_id →
    (fails_next w = true ∨
     (1 < length (filter (λ f, Film.id f = film_id) (films (db w))))%nat) →
    post_outcome request w
      (server_error "An error occurred while creating the comment" detail)
      (after_query (GetFilm film_id) w)
| post_comment_required film :
    film_resolves request w film →
    Py.truthy (data_get request "comment") = false →
    post_outcome request w (validation_error "comment text is required")
      (after_query (GetFilm (Film.id film)) w)
| post_comment_blank film :
    film_resolves request w film →
    Py.truthy (data_get request "comment") = true →
    comment_text_of request = "" →
    post_outcome request w
      (validation_error "comment cannot be empty or whitespace only")
      (after_query (GetFilm (Film.id film)) w)
| post_comment_long film detail :
    film_resolves request w film →
    Py.truthy (data_get request "comment") = true →
    comment_text_of request ≠ "" →
    (500 < String.length (comment_text_of request))%nat →
    post_outcome request w (validation_error detail)
      (after_query (GetFilm (Film.id film)) w)
| post_insert_error film detail :
    film_resolves request w film →
    Py.truthy (data_get request "comment") = true →
    comment_text_of request ≠ "" →
    (String.length (comment_text_of request) ≤ 500)%nat →
    fails_next (after_query (GetFilm (Film.id film)) w) = true →
    post_outcome request w
      (server_error "An error occurred while creating the comment" detail)
      (after_query (InsertComment (Film.id film))
         (after_query (GetFilm (Film.id film)) w))
| post_created film :
    film_resolves request w film →
    Py.truthy (data_get request "comment") = true →
    comment_text_of request ≠ "" →
    (String.length (comment_text_of request) ≤ 500)%nat →
    fails_next (after_query (GetFilm (Film.id film)) w) = false →
    post_outcome request w
      (mkResponse
         (CommentData
            (mkCommentView (comments_seq (db w) + 1) (comment_text_of request)
                           (now w) (Film.title film)))
         HTTP_201_CREATED)
      (with_comment (new_comment request w film)
         [GetFilm (Film.id film); InsertComment (Film.id film)] w).

(** The four ways [FilmDetailView.get] ends. *)
Inductive detail_outcome (film_id : Z) (w : World) : Response → World → Prop :=
| detail_hit v :
    cached (film_cache_key film_id) w = Some v →
    detail_outcome film_id w (mkResponse v HTTP_200_OK) w
| detail_unknown detail w' :
    cached (film_cache_key film_id) w = None →
    fails_next w = false →
    with_film_id (pretty film_id) (film_caches (db w)) = [] →
    db w' = db w → cache w' = cache w → now w' = now w →
    queries w' = (queries w ++ [GetFilmCache (pretty film_id)])%list →
    detail_outcome film_id w (not_found detail) w'
| detail_found film v w' :
    cached (film_cache_key film_id) w = None →
    fails_next w = false →
    with_film_id (pretty film_id) (film_caches (db w)) = [film] →
    views_of_rows (db w) [film] [v] →
    db w' = db w → now w' = now w →
    cache w' = <[film_cache_key film_id := (FilmData v, now w + CACHE_TTL)]> (cache w) →
    (∃ qs, queries w' = (queries w ++ GetFilmCache (pretty film_id) :: qs)%list) →
    detail_outcome film_id w (mkResponse (FilmData v) HTTP_200_OK) w'
| detail_error detail w' :
    cached (film_cache_key film_id) w = None →
    (fails_next w = true ∨
     (1 < length (with_film_id (pretty film_id) (film_caches (db w))))%nat) →
    db w' = db w → cache w' = cache w → now w' = now w →
    queries w' = (queries w ++ [GetFilmCache (pretty film_id)])%list →
    detail_outcome film_id w
      (mkResponse
         (ErrorData "An error occurred while fetching film details" detail)
         HTTP_500_INTERNAL_SERVER_ERROR) w'.

(** ** A small instance for the examples *)

(** Two local films, of which the first has one comment; the catalog rows
    of three films, stored out of date order. *)
Definition demo_store : Store :=
  mkStore
    [Film.mk 1 "A New Hope" 721864 0;
     Film.mk 2 "The Empire Strikes Back" 722952 0]
    [FilmCache.mk 1 "1" "The Phantom Menace" 729893 0;
     FilmCache.mk 2 "2" "A New Hope" 721864 0;
     FilmCache.mk 3 "3" "The Empire Strikes Back" 722952 0]
    [Comments.mk 1 1 "Great!" 50]
    3 1.

(** A process that has just started: nothing cached, a store that answers. *)
Definition demo_world : World := mkWorld demo_store ∅ 100 [] [].

(** The same process while the store fails the second statement it gets. *)
Definition demo_world_failing : World :=
  mkWorld demo_store ∅ 100 [None; Some "connection lost"] [].

Definition demo_request (film comment : Py.value) : Request :=
  mkRequest (<["film" := film]> (<["comment" := comment]> ∅)) false.

Definition demo_get : Request := mkRequest ∅ false.

(** A text for the values whose [str] the model leaves open. *)
Definition demo_repr (v : Py.value) : string := "<value>".

Definition demo_remote : list RemoteFilm :=
  [mkRemoteFilm (Some "A New Hope") (Some 721864);
   mkRemoteFilm (Some "The Empire Strikes Back") (Some 722952)].

(** ** film/views.py: the comments of a film *)

Definition by_created_at (a b : Comments.t) : Prop :=
  Comments.created_at a ≤ Comments.created_at b.

#[global] Instance by_created_at_dec a b : Decision (by_created_at a b).
Proof. unfold by_created_at. apply _. Defined.

(** A statement that the log has no name for (the log names the statements
    of the film handlers and of the sync): it takes its answer from the
    oracle as [execute] does and leaves the log alone. *)
Definition execute_unnamed {A} (f : Store → result A * Store) : M A := λ w,
  match faults w with
  | Some msg :: rest =>
      (Raise (mkExn DatabaseError msg),
       mkWorld (db w) (cache w) (now w) rest (queries w))
  | rest =>
      let '(r, s) := f (db w) in
      (r, mkWorld s (cache w) (now w) (tail rest) (queries w))
  end.

(** [Comments.objects.filter(film=film).order_by('created_at')], evaluated. *)
Definition Comments_filter_film_order_by_created_at (film : Z)
  : M (list Comments.t) :=
  execute_unnamed
    (λ s, (Ok (order_by by_created_at (of_film film (comments s))), s)).

(** One element of [CommentSerializer(comments, many=True).data]. *)
Record CommentRow := mkCommentRow {
  cr_id : Z;
  cr_comment : string;
  cr_created_at : Z;
  cr_film_title : option string
}.

(** [CommentSerializer] on a comment that came from a queryset: its film is
    not loaded yet, so reading [film.title] fetches it by primary key; when
    that fetch finds no film the field is [None]. *)
Definition comment_row (c : Comments.t) : M CommentRow :=
  film_title ← try_except_kind DoesNotExist
                  (film ← Film_get (Comments.film c);
                   mret (Some (Film.title film)))
                  (mret None);
  mret (mkCommentRow (Comments.id c) (Comments.comment c)
                     (Comments.created_at c) film_title).

(** What [CommentsListView.get] answers: the serialized comments with the
    status 200, or an error response. *)
Inductive CommentsResponse :=
| CommentsOk (l : list CommentRow)
| CommentsError (r : Response).

(** [CommentsListView.get]; [film_id] is the integer the URL converter
    passes. *)
Definition CommentsListView_get (request : Request) (film_id : Z)
  : M CommentsResponse :=
  try_except
    (found ← try_except_kind DoesNotExist
               (film ← Film_get film_id; mret (Some film))
               (mret None);
     match found with
     | None =>
         mret (CommentsError
                 (not_found ("Film with ID " +:+ pretty film_id
                             +:+ " does not exist")))
     | Some film =>
         comments ← Comments_filter_film_order_by_created_at (Film.id film);
         rows ← for_each comment_row comments;
         mret (CommentsOk rows)
     end)
    (λ e, mret (CommentsError
                  (mkResponse
                     (ErrorData "An error occurred while fetching comments"
                                (error_detail request e))
                     HTTP_500_INTERNAL_SERVER_ERROR))).

(** The serialized form of a comment of a film with this title. *)
Definition row_of (title : string) (c : Comments.t) : CommentRow :=
  mkCommentRow (Comments.id c) (Comments.comment c) (Comments.created_at c)
               (Some title).

(** What a catalog row holds besides the time of its last sync. *)
Definition row_key (r : FilmCache.t) : Z * string * string * Z :=
  (FilmCache.id r, FilmCache.film_id r, FilmCache.title r,
   FilmCache.release_date r).

(** The rows are in ascending order of creation time. *)
Definition sorted_by_created_at (l : list CommentRow) : Prop :=
  StronglySorted (λ a b, cr_created_at a ≤ cr_created_at b) l.

(** The row that lists the comment of a [createComment] answer. *)
Definition row_of_view (v : CommentView) : CommentRow :=
  mkCommentRow (cv_id v) (cv_comment v) (cv_created_at v)
               (Some (cv_film_title v)).

(** Every per-film entry of the cache is a film view. *)
Definition detail_entries_typed (w : World) : Prop :=
  ∀ film_id v expiry,
    cache w !! film_cache_key film_id = Some (v, expiry) →
    ∃ view, v = FilmData view.

(** ** film/serializers.py: the bound that the serializer states *)


(** ** More small instances *)

(** The small instance while the store is down. *)
Definition demo_world_down : World :=
  mkWorld demo_store ∅ 100 [Some "connection lost"] [].

(** The small instance before the first sync: the catalog is empty. *)
Definition demo_world_no_catalog : World :=
  mkWorld (mkStore (films demo_store) [] (comments demo_store) 0 1)
          ∅ 100 [] [].

(** Two local films with one title; the title of the catalog row resolves
    to the first of them. *)
Definition demo_world_twins : World :=
  mkWorld
    (mkStore
       [Film.mk 1 "A New Hope" 721864 0; Film.mk 2 "A New Hope" 721864 0]
       [FilmCache.mk 1 "1" "A New Hope" 721864 0]
       [] 1 0)
    ∅ 100 [] [].

(** * Proofs *)

(** ** The order of a query *)

Section ordering.
Context {A} (R : relation A) `{∀ x y, Decision (R x y)}.

Lemma insert_row_Permutation x l : insert_row R x l ≡ₚ x :: l.
Proof.
  induction l as [|y l IH]; simpl; [done|].
  destruct (decide (R x y)); [done|]. rewrite IH. apply Permutation_swap.
Qed.

Lemma order_by_Permutation l : order_by R l ≡ₚ l.
Proof.
  unfold order_by. induction l as [|x l IH]; simpl; [done|].
  by rewrite insert_row_Permutation, IH.
Qed.

Lemma StronglySorted_insert_row `{!Transitive R, !Total R} x l :
  StronglySorted R l → StronglySorted R (insert_row R x l).
Proof.
  induction 1 as [|y l Hs IH Hy]; simpl.
  { repeat constructor. }
  destruct (decide (R x y)) as [Hxy|Hxy].
  - constructor; [by constructor|].
    constructor; [done|].
    eapply Forall_impl; [apply Hy|]. intros z Hz. by transitivity y.
  - constructor; [done|].
    rewrite insert_row_Permutation. constructor; [|done].
    by destruct (total R x y).
Qed.

Lemma StronglySorted_order_by `{!Transitive R, !Total R} l :
  StronglySorted R (order_by R l).
Proof.
  unfold order_by. induction l as [|x l IH]; simpl; [constructor|].
  by apply StronglySorted_insert_row.
Qed.

End ordering.

(** ** The monad and the primitives *)

Lemma bind_run {A B} (m : M A) (k : A → M B) (w : World) :
  (m ≫= k) w =
  match m w with
  | (Ok a, w') => k a w'
  | (Raise e, w') => (Raise e, w')
  end.
Proof. reflexivity. Qed.

Lemma ret_run {A} (a : A) (w : World) : (mret a : M A) w = (Ok a, w).
Proof. reflexivity. Qed.

Lemma try_except_run {A} (m : M A) (h : Exn → M A) (w : World) :
  try_except m h w =
  match m w with
  | (Ok a, w') => (Ok a, w')
  | (Raise e, w') => h e w'
  end.
Proof. reflexivity. Qed.

Lemma cached_get key w : cache_get key w = (Ok (cached key w), w).
Proof. reflexivity. Qed.

(** A statement leaves the cache and the clock alone, is logged, and
    consumes one answer of the oracle. *)
Lemma execute_frame {A} q (f : Store → result A * Store) w r w' :
  execute q f w = (r, w') →
  cache w' = cache w ∧ now w' = now w ∧
  queries w' = (queries w ++ [q])%list ∧ faults w' = tail (faults w).
Proof.
  unfold execute. intros H.
  destruct (faults w) as [|[msg|] rest] eqn:Hf.
  - destruct (f (db w)) as [r0 s]. by simplify_eq.
  - by simplify_eq.
  - destruct (f (db w)) as [r0 s]. by simplify_eq.
Qed.

Lemma execute_answers {A} q (f : Store → result A * Store) w :
  fails_next w = false →
  execute q f w =
  (let '(r, s) := f (db w) in
   (r, mkWorld s (cache w) (now w) (tail (faults w)) (queries w ++ [q]))).
Proof.
  unfold execute, fails_next.
  destruct (faults w) as [|[msg|] rest]; by intros.
Qed.

Lemma execute_fails {A} q (f : Store → result A * Store) w :
  fails_next w = true →
  ∃ msg, execute q f w =
         (Raise (mkExn DatabaseError msg),
          mkWorld (db w) (cache w) (now w) (tail (faults w)) (queries w ++ [q])).
Proof.
  unfold execute, fails_next.
  destruct (faults w) as [|[msg|] rest]; intros; try done. by exists msg.
Qed.

(** A statement that only reads leaves the tables alone. *)
Lemma execute_reads {A} q (g : Store → result A) w r w' :
  execute q (λ s, (g s, s)) w = (r, w') → db w' = db w.
Proof.
  unfold execute. destruct (faults w) as [|[msg|] rest]; intros; by simplify_eq.
Qed.

Lemma store_up_answers w : store_up w → fails_next w = false.
Proof. unfold store_up, fails_next. by intros ->. Qed.

(** ** The comment count of one catalog row *)

#[local] Instance by_pk_trans : Transitive by_pk.
Proof. unfold by_pk. intros a b c. lia. Qed.

#[local] Instance by_pk_total : Total by_pk.
Proof. unfold by_pk. intros a b. lia. Qed.

(** The film that [first()] returns is the first match of the title. *)
Lemma first_film_first_match title s film :
  first_film title s = Some film → first_match s title film.
Proof.
  unfold first_film, with_title. intros Hhead.
  destruct (order_by by_pk _) as [|f rest] eqn:Hsort; simplify_eq/=.
  assert (∀ g, g ∈ film :: rest ↔ g ∈ films s ∧ Film.title g = title) as Hin.
  { intros g. rewrite <- Hsort, order_by_Permutation, list_elem_of_filter.
    tauto. }
  pose proof (StronglySorted_order_by by_pk
                (filter (λ f, Film.title f = title) (films s))) as Hs.
  rewrite Hsort in Hs. apply StronglySorted_inv in Hs as [_ Hle].
  destruct (proj1 (Hin film)) as [Hf Ht]; [apply list_elem_of_here|].
  repeat split; try done.
  intros other Ho Hto.
  pose proof (proj2 (Hin other) (conj Ho Hto)) as Hmem.
  apply elem_of_cons in Hmem as [->|Hrest]; [lia|].
  rewrite Forall_forall in Hle. by apply Hle.
Qed.

(** [first()] returns nothing only when no local film has the title. *)
Lemma first_film_no_match title s :
  first_film title s = None → no_match s title.
Proof.
  unfold first_film, with_title. intros Hhead film Hin Ht.
  assert (film ∈ order_by by_pk (filter (λ f, Film.title f = title) (films s)))
    as Hmem.
  { rewrite order_by_Permutation. by apply list_elem_of_filter. }
  destruct (order_by by_pk _); [by apply not_elem_of_nil in Hmem|done].
Qed.

Lemma number_of_comments_of_film film rows :
  number_of_comments film rows = Z.of_nat (length (of_film film rows)).
Proof.
  unfold of_film. induction rows as [|c rows IH]; [done|].
  simpl. rewrite IH. unfold filter at 2. simpl.
  destruct (decide (Comments.film c = film)); simpl; lia.
Qed.

(** What the handlers compute for a title is its comment count. *)
Lemma comment_total_resolved s title :
  resolved_count s title (comment_total s title).
Proof.
  unfold comment_total, resolved_count.
  destruct (first_film title s) as [film|] eqn:Hfirst.
  - left. exists film. split; [by apply first_film_first_match|].
    by rewrite number_of_comments_of_film.
  - right. split; [by apply first_film_no_match|done].
Qed.

(** A title has one comment count. *)
Lemma resolved_count_unique s title n m :
  resolved_count s title n → resolved_count s title m → n = m.
Proof.
  intros [(f & (Hf & Htf & Hminf) & ->)|[Hno ->]]
         [(g & (Hg & Htg & Hming) & ->)|[Hno' ->]]; try done.
  - assert (Film.id f = Film.id g) as -> by
      (pose proof (Hminf g Hg Htg); pose proof (Hming f Hf Htf); lia).
    done.
  - by destruct (Hno' f Hf).
  - by destruct (Hno g Hg).
Qed.

Lemma count_comments_frame title w r w' :
  count_comments title w = (r, w') →
  db w' = db w ∧ cache w' = cache w ∧ now w' = now w ∧
  ∃ qs, queries w' = (queries w ++ FirstFilmByTitle title :: qs)%list.
Proof.
  unfold count_comments, Film_filter_title_first, Comments_filter_film_count.
  rewrite bind_run. intros H.
  destruct (execute _ _ w) as [[[film|]|e] w1] eqn:E1;
    pose proof (execute_frame _ _ _ _ _ E1) as (Hc1 & Hn1 & Hq1 & _);
    pose proof (execute_reads _ _ _ _ _ E1) as Hd1.
  - pose proof (execute_frame _ _ _ _ _ H) as (Hc2 & Hn2 & Hq2 & _).
    pose proof (execute_reads _ _ _ _ _ H) as Hd2.
    repeat split; try congruence.
    exists [CountComments (Film.id film)].
    rewrite Hq2, Hq1, <- app_assoc. done.
  - mred. repeat split; try done. by exists nil.
  - mred. repeat split; try done. by exists nil.
Qed.

(** When the resolution returns, it returns the number of comments of the
    first local film with the title, or zero when there is none. *)
Lemma count_comments_result title w n w' :
  count_comments title w = (Ok n, w') → n = comment_total (db w) title.
Proof.
  unfold count_comments, Film_filter_title_first, Comments_filter_film_count,
    comment_total.
  rewrite bind_run. intros H.
  destruct (execute _ _ w) as [[o|e] w1] eqn:E1; [|done].
  pose proof (execute_reads _ _ _ _ _ E1) as Hd1.
  assert (o = first_film title (db w)) as ->.
  { unfold execute in E1. destruct (faults w) as [|[msg|] rest]; by simplify_eq. }
  destruct (first_film title (db w)) as [film|]; [|by mred].
  unfold execute in H. rewrite Hd1 in H.
  destruct (faults w1) as [|[msg|] rest]; by simplify_eq.
Qed.

(** Over a store that answers, the resolution returns. *)
Lemma count_comments_up title w :
  store_up w →
  ∃ w', count_comments title w = (Ok (comment_total (db w) title), w') ∧
        store_up w'.
Proof.
  unfold store_up, count_comments, Film_filter_title_first,
    Comments_filter_film_count, comment_total. intros Hf.
  rewrite bind_run. unfold execute at 1. rewrite Hf.
  destruct (first_film title (db w)) as [film|]; simpl.
  - unfold execute. simpl. eauto.
  - eauto.
Qed.

(** The guarded resolution never raises: it yields what the resolution
    returned, or zero when the resolution raised. *)
Lemma comment_count_for_run title w :
  ∃ n w', comment_count_for title w = (Ok n, w') ∧
    ((∃ e, count_comments title w = (Raise e, w')) ∧ n = 0 ∨
     count_comments title w = (Ok n, w')).
Proof.
  unfold comment_count_for. rewrite try_except_run.
  destruct (count_comments title w) as [[n|e] w'] eqn:E; eauto 10.
Qed.

Lemma film_view_run film w :
  ∃ v w', film_view film w = (Ok v, w') ∧
    db w' = db w ∧ cache w' = cache w ∧ now w' = now w ∧
    (∃ qs, queries w' = (queries w ++ qs)%list ∧ qs ≠ []) ∧
    fv_id v = FilmCache.id film ∧ fv_title v = FilmCache.title film ∧
    fv_release_date v = FilmCache.release_date film ∧
    (fv_comment_count v = comment_total (db w) (FilmCache.title film) ∨
     fv_comment_count v = 0) ∧
    (store_up w → store_up w' ∧ v = view_of (db w) film).
Proof.
  unfold film_view. rewrite bind_run.
  destruct (comment_count_for_run (FilmCache.title film) w)
    as (n & w' & -> & Hn).
  exists (mkFilmView (FilmCache.id film) (FilmCache.title film)
            (FilmCache.release_date film) n), w'.
  assert (∃ r, count_comments (FilmCache.title film) w = (r, w')) as [r Hr].
  { destruct Hn as [[[e He] _]|He]; eauto. }
  destruct (count_comments_frame _ _ _ _ Hr) as (Hd & Hc & Ht & qs & Hq).
  split; [done|]. repeat split; try done.
  - eexists. split; [exact Hq|done].
  - destruct Hn as [[_ ->]|Hn]; [by right|left].
    by apply count_comments_result in Hn.
  - destruct (count_comments_up (FilmCache.title film) w H) as (w2 & E & Hup).
    rewrite E in Hr. by simplify_eq.
  - destruct (count_comments_up (FilmCache.title film) w H) as (w2 & E & Hup).
    destruct Hn as [[[e He] _]|He]; rewrite E in *; by simplify_eq.
Qed.

Lemma for_each_film_view_run rows : ∀ w,
  ∃ l w', for_each film_view rows w = (Ok l, w') ∧
    db w' = db w ∧ cache w' = cache w ∧ now w' = now w ∧
    (∃ qs, queries w' = (queries w ++ qs)%list) ∧
    views_of_rows (db w) rows l ∧
    (store_up w → store_up w' ∧ l = view_of (db w) <$> rows).
Proof.
  induction rows as [|film rows IH]; intros w.
  - exists nil, w. simpl. rewrite ret_run. repeat split; try done.
    + exists nil. by rewrite app_nil_r.
    + constructor.
  - simpl. rewrite bind_run.
    destruct (film_view_run film w)
      as (v & w1 & -> & Hd & Hc & Ht & (qs1 & Hq1 & _) & Hi & Hti & Hr & Hn & Hup).
    rewrite bind_run.
    destruct (IH w1) as (l & w2 & -> & Hd2 & Hc2 & Ht2 & (qs2 & Hq2) & HF & Hup2).
    rewrite ret_run. exists (v :: l), w2.
    repeat split; try congruence.
    + exists (qs1 ++ qs2)%list. rewrite Hq2, Hq1, app_assoc. done.
    + constructor; [done|]. by rewrite <- Hd.
    + apply Hup2, Hup, H.
    + destruct (Hup H) as [Hu ->]. destruct (Hup2 Hu) as [_ ->].
      by rewrite Hd.
Qed.

(** ** The film list *)

#[local] Instance by_release_date_trans : Transitive by_release_date.
Proof. unfold by_release_date. intros a b c. lia. Qed.

#[local] Instance by_release_date_total : Total by_release_date.
Proof. unfold by_release_date. intros a b. lia. Qed.

Lemma views_sorted s rows l :
  views_of_rows s rows l →
  StronglySorted by_release_date rows → sorted_by_release_date l.
Proof.
  unfold views_of_rows, sorted_by_release_date.
  induction 1 as [|film v rows l (_ & _ & Hd & _) HF IH]; intros Hs.
  - constructor.
  - apply StronglySorted_inv in Hs as [Hs Hall]. constructor; [by apply IH|].
    clear IH Hs. induction HF as [|film' v' rows l (_ & _ & Hd' & _) HF IH'].
    + constructor.
    + apply Forall_cons in Hall as [Hle Hall]. constructor; [|by apply IH'].
      unfold by_release_date in Hle. lia.
Qed.

Lemma FilmsListView_get_hit request w v :
  cached FILMS_CACHE_KEY w = Some v →
  FilmsListView_get request w = (Ok (mkResponse v HTTP_200_OK), w).
Proof.
  intros Hc. unfold FilmsListView_get.
  rewrite try_except_run, bind_run, cached_get, Hc. done.
Qed.

(** A miss over a store that answers the listing: the list is assembled
    from the ordered rows, stored under the list key and returned. *)
Lemma FilmsListView_get_miss request w :
  cached FILMS_CACHE_KEY w = None → fails_next w = false →
  ∃ l w', FilmsListView_get request w
          = (Ok (mkResponse (FilmListData l) HTTP_200_OK), w') ∧
    views_of_rows (db w) (order_by by_release_date (film_caches (db w))) l ∧
    db w' = db w ∧ now w' = now w ∧
    cache w' = <[FILMS_CACHE_KEY := (FilmListData l, now w + CACHE_TTL)]> (cache w) ∧
    (∃ qs, queries w' = (queries w ++ SelectFilmCaches :: qs)%list) ∧
    (store_up w → l = films_list_of (db w) ∧ store_up w').
Proof.
  intros Hc Hf. unfold FilmsListView_get.
  rewrite try_except_run, bind_run, cached_get, Hc, bind_run.
  unfold FilmCache_all_order_by_release_date. rewrite execute_answers by done.
  simpl. rewrite bind_run.
  set (w1 := mkWorld _ _ _ _ _).
  destruct (for_each_film_view_run
              (order_by by_release_date (film_caches (db w))) w1)
    as (l & w2 & -> & Hd & Hca & Ht & (qs & Hq) & HF & Hup).
  exists l, (mkWorld (db w2)
               (<[FILMS_CACHE_KEY := (FilmListData l, now w2 + CACHE_TTL)]> (cache w2))
               (now w2) (faults w2) (queries w2)).
  simpl. rewrite Hd, Hca, Ht, Hq. simpl.
  repeat split; try done.
  - exists qs. by rewrite <- app_assoc.
  - unfold store_up in *. destruct Hup as [_ ->]; [|done]. simpl. by rewrite H.
  - unfold store_up in *. destruct Hup as [Hu _]; [|done]. simpl. by rewrite H.
Qed.

(** A miss over a store that fails the listing: a server error, and
    nothing is cached. *)
Lemma FilmsListView_get_down request w :
  cached FILMS_CACHE_KEY w = None → fails_next w = true →
  ∃ detail w', FilmsListView_get request w
      = (Ok (mkResponse
               (ErrorData "An error occurred while fetching films" detail)
               HTTP_500_INTERNAL_SERVER_ERROR), w') ∧
    db w' = db w ∧ cache w' = cache w ∧ now w' = now w.
Proof.
  intros Hc Hf. unfold FilmsListView_get.
  rewrite try_except_run, bind_run, cached_get, Hc, bind_run.
  unfold FilmCache_all_order_by_release_date.
  destruct (execute_fails SelectFilmCaches
              (λ s, (Ok (order_by by_release_date (film_caches s)), s)) w Hf)
    as [msg ->].
  rewrite ret_run. eauto 10.
Qed.

Lemma FilmsListView_get_sorted request w r w' :
  FilmsListView_get request w = (r, w') →
  list_entry_sorted w → list_entry_sorted w'.
Proof.
  intros Hrun Hinv.
  destruct (cached FILMS_CACHE_KEY w) as [v|] eqn:Hc.
  - rewrite (FilmsListView_get_hit _ _ _ Hc) in Hrun. by simplify_eq.
  - destruct (fails_next w) eqn:Hf.
    + destruct (FilmsListView_get_down request w Hc Hf)
        as (detail & w2 & E & _ & Hca & _).
      rewrite E in Hrun. simplify_eq. unfold list_entry_sorted. by rewrite Hca.
    + destruct (FilmsListView_get_miss request w Hc Hf)
        as (l & w2 & E & HF & _ & _ & Hca & _).
      rewrite E in Hrun. simplify_eq. unfold list_entry_sorted.
      rewrite Hca, lookup_insert_eq. intros v expiry [= <- <-].
      exists l. split; [done|]. eapply views_sorted; [exact HF|].
      apply StronglySorted_order_by; apply _.
Qed.

(** ** The film detail *)

Lemma film_key_not_list film_id : film_cache_key film_id ≠ FILMS_CACHE_KEY.
Proof.
  unfold film_cache_key, FILMS_CACHE_KEY.
  destruct (pretty film_id); discriminate.
Qed.

Lemma FilmDetailView_get_outcome request film_id w :
  ∃ resp w', FilmDetailView_get request film_id w = (Ok resp, w') ∧
             detail_outcome film_id w resp w'.
Proof.
  unfold FilmDetailView_get.
  rewrite try_except_run, bind_run, cached_get.
  destruct (cached (film_cache_key film_id) w) as [v|] eqn:Hc.
  { rewrite ret_run. eexists _, _. split; [done|]. by constructor. }
  rewrite bind_run. unfold try_except_kind, FilmCache_get.
  rewrite try_except_run, bind_run.
  destruct (fails_next w) eqn:Hf.
  { destruct (execute_fails (GetFilmCache (pretty film_id))
      (λ s, (get_one "FilmCache" (with_film_id (pretty film_id) (film_caches s)), s))
      w Hf) as [msg ->].
    simpl. eexists _, _. split; [done|]. apply detail_error; auto. }
  rewrite execute_answers by done.
  destruct (with_film_id (pretty film_id) (film_caches (db w)))
    as [|film [|film' rows]] eqn:Hrows; simpl.
  - eexists _, _. split; [done|]. by apply detail_unknown.
  - rewrite bind_run.
    set (w1 := mkWorld _ _ _ _ _).
    destruct (film_view_run film w1)
      as (v & w2 & -> & Hd & Hca & Ht & (qs & Hq & _) & Hi & Hti & Hr & Hn & _).
    simpl. eexists _, _. split; [done|].
    apply detail_found with film; simpl; try done.
    + constructor; [done|constructor].
    + by rewrite Hca, Ht.
    + exists qs. rewrite Hq. simpl. by rewrite <- app_assoc.
  - eexists _, _. split; [done|]. apply detail_error; auto.
    right. rewrite Hrows. simpl. lia.
Qed.

(** ** Comment creation *)

Lemma CommentCreateView_post_outcome request w :
  ∃ resp w', CommentCreateView_post request w = (Ok resp, w') ∧
             post_outcome request w resp w'.
Proof.
  unfold CommentCreateView_post. rewrite try_except_run.
  destruct (Py.truthy (data_get request "film")) eqn:Htr; simpl.
  2:{ eexists _, _. split; [done|]. by constructor. }
  destruct (Py.int (data_get request "film")) as [e|film_id] eqn:Hint.
  { destruct e; simpl; eexists _, _; (split; [done|]).
    - by apply (post_film_invalid _ _ Py.ValueError).
    - by apply (post_film_invalid _ _ Py.TypeError).
    - by apply post_film_overflow. }
  rewrite bind_run. unfold try_except_kind, Film_get.
  rewrite try_except_run, bind_run.
  destruct (fails_next w) eqn:Hf.
  { destruct (execute_fails (GetFilm film_id)
      (λ s, (get_one "Film" (filter (λ f, Film.id f = film_id) (films s)), s))
      w Hf) as [msg ->].
    simpl. eexists _, _. split; [done|]. apply post_film_error; auto. }
  rewrite execute_answers by done.
  destruct (filter (λ f, Film.id f = film_id) (films (db w)))
    as [|film [|film' rows]] eqn:Hrows; simpl.
  - eexists _, _. split; [done|]. by apply post_film_unknown.
  - assert (Film.id film = film_id) as Hid.
    { assert (film ∈ filter (λ f, Film.id f = film_id) (films (db w))) as Hin
        by (rewrite Hrows; apply list_elem_of_here).
      by apply list_elem_of_filter in Hin as [? _]. }
    subst film_id.
    assert (film_resolves request w film) as Hres by done.
    fold (after_query (GetFilm (Film.id film)) w).
    destruct (Py.truthy (data_get request "comment")) eqn:Hct; simpl.
    2:{ eexists _, _. split; [done|]. by apply post_comment_required. }
    fold (comment_text_of request).
    destruct (String.eqb_spec (comment_text_of request) "") as [He|He].
    { eexists _, _. split; [done|]. by apply post_comment_blank. }
    destruct (Z.ltb_spec 500 (Z.of_nat (String.length (comment_text_of request))))
      as [Hl|Hl].
    { eexists _, _. split; [done|]. apply (post_comment_long request w film); auto. lia. }
    rewrite bind_run. unfold Comments_create.
    rewrite bind_run. unfold timezone_now.
    destruct (fails_next (after_query (GetFilm (Film.id film)) w)) eqn:Hf2.
    + match goal with
      | |- context [execute ?q ?f ?w0] =>
          destruct (execute_fails q f w0 Hf2) as [msg ->]
      end.
      simpl. eexists _, _. split; [done|].
      apply (post_insert_error request w film); auto. lia.
    + rewrite execute_answers by done. simpl.
      eexists _, _. split; [done|].
      unfold with_comment, new_comment. rewrite <- app_assoc. simpl.
      apply (post_created request w film); auto. lia.
  - eexists _, _. split; [done|]. apply post_film_error; auto.
    right. rewrite Hrows. simpl. lia.
Qed.

(** *** Trimming *)

Lemma rstrip_keeps_head c s :
  Py.isspace c = false → Py.rstrip (String c s) = String c (Py.rstrip s).
Proof. intros Hc. simpl. rewrite Hc. by destruct (Py.rstrip s). Qed.

Lemma rstrip_idem s : Py.rstrip (Py.rstrip s) = Py.rstrip s.
Proof.
  induction s as [|c s IH]; [done|]. simpl.
  destruct (Py.rstrip s) as [|d r] eqn:E.
  - destruct (Py.isspace c) eqn:Hc; [done|]. simpl. by rewrite Hc.
  - change (Py.rstrip (String c (String d r))) with
      (match Py.rstrip (String d r) with
       | EmptyString =>
           if Py.isspace c then EmptyString else String c EmptyString
       | r' => String c r'
       end).
    by rewrite IH.
Qed.

Lemma lstrip_head s :
  Py.lstrip s = "" ∨
  ∃ c s', Py.lstrip s = String c s' ∧ Py.isspace c = false.
Proof.
  induction s as [|c s IH]; [by left|]. simpl.
  destruct (Py.isspace c) eqn:Hc; [done|]. right. eauto.
Qed.

(** Trimming a trimmed text changes nothing. *)
Lemma strip_idem s : Py.strip (Py.strip s) = Py.strip s.
Proof.
  unfold Py.strip. destruct (lstrip_head s) as [->|(c & s' & -> & Hc)]; [done|].
  rewrite (rstrip_keeps_head _ _ Hc). simpl Py.lstrip. rewrite Hc.
  rewrite <- (rstrip_keeps_head _ _ Hc). apply rstrip_idem.
Qed.

(** A text of whitespace trims to nothing. *)
Lemma strip_all_space s : Py.all_space s = true → Py.strip s = "".
Proof.
  unfold Py.strip. induction s as [|c s IH]; [done|]. simpl.
  intros [Hc Hs]%andb_prop. rewrite Hc. by apply IH.
Qed.

(** *** What a run of [post] leaves behind *)

Lemma post_outcome_cache request w resp w' :
  post_outcome request w resp w' →
  now w' = now w ∧
  (status resp ≠ HTTP_201_CREATED ∧ db w' = db w ∧ cache w' = cache w ∨
   status resp = HTTP_201_CREATED ∧
   cache w' = delete FILMS_CACHE_KEY (cache w)).
Proof. destruct 1; simpl; split; auto; by left. Qed.

(** A created comment: the film it went to, the row, the response. *)
Lemma post_outcome_created request w resp w' :
  post_outcome request w resp w' → status resp = HTTP_201_CREATED →
  ∃ film, film_resolves request w film ∧
    Py.truthy (data_get request "comment") = true ∧
    comment_text_of request ≠ "" ∧
    (String.length (comment_text_of request) ≤ 500)%nat ∧
    resp = mkResponse
             (CommentData
                (mkCommentView (comments_seq (db w) + 1)
                   (comment_text_of request) (now w) (Film.title film)))
             HTTP_201_CREATED ∧
    w' = with_comment (new_comment request w film)
           [GetFilm (Film.id film); InsertComment (Film.id film)] w.
Proof. destruct 1; simpl; try done; intros _; exists film; auto 10. Qed.

Lemma film_resolves_in request w film :
  film_resolves request w film → film ∈ films (db w).
Proof.
  intros (_ & _ & _ & Hrows).
  assert (film ∈ filter (λ f, Film.id f = Film.id film) (films (db w))) as Hin
    by (rewrite Hrows; apply list_elem_of_here).
  by apply list_elem_of_filter in Hin as [_ ?].
Qed.

Lemma of_film_snoc film rows row :
  of_film film (rows ++ [row]) =
  (of_film film rows ++ if decide (Comments.film row = film) then [row] else [])%list.
Proof.
  unfold of_film. by rewrite filter_app.
Qed.

(** The comment total of a title after one more comment on [film]. *)
Lemma comment_total_with_comment s row title :
  comment_total
    (mkStore (films s) (film_caches s) (comments s ++ [row])
             (film_cache_seq s) (comments_seq s + 1)) title =
  comment_total s title +
  match first_film title s with
  | Some f => if decide (Film.id f = Comments.film row) then 1 else 0
  | None => 0
  end.
Proof.
  unfold comment_total, first_film. simpl.
  destruct (head _) as [f|]; [|done].
  rewrite of_film_snoc, length_app.
  destruct (decide (Comments.film row = Film.id f)) as [E|E];
    destruct (decide (Film.id f = Comments.film row)); try congruence;
    simpl; lia.
Qed.

Lemma film_resolves_unique request w film film' :
  film_resolves request w film → film_resolves request w film' → film = film'.
Proof.
  intros (_ & Hi & _ & Hrows) (_ & Hi' & _ & Hrows').
  assert (Film.id film = Film.id film') as E by congruence.
  rewrite E in Hrows. congruence.
Qed.

(** Discharge the endings of [post] that the hypotheses exclude. *)
Ltac post_cases request w :=
  let resp := fresh "resp" in
  let w' := fresh "w'" in
  let E := fresh "E" in
  let O := fresh "O" in
  destruct (CommentCreateView_post_outcome request w) as (resp & w' & E & O);
  rewrite E; clear E;
  destruct O;
  repeat match goal with
    | H : film_resolves _ _ _, H' : film_resolves _ _ _ |- _ =>
        pose proof (film_resolves_unique _ _ _ _ H H'); subst; clear H'
    end;
  repeat match goal with
    | H : film_resolves _ _ _ |- _ => destruct H as (? & ? & ? & ?)
    end;
  repeat match goal with
    | H : ?x = inr ?a, H' : ?x = inr ?b |- _ =>
        assert (b = a) by congruence; clear H'; subst
    end;
  simplify_eq; try done; try congruence; try lia;
  try match goal with
    | H : _ ∨ (1 < length ?l)%nat, Hr : ?l = _ |- _ =>
        destruct H as [?|H]; [congruence|];
        rewrite Hr in H; simpl in H; lia
    end.

Lemma post_missing_film request w :
  Py.truthy (data_get request "film") = false →
  CommentCreateView_post request w
  = (Ok (validation_error "film ID is required"), w).
Proof. intros. post_cases request w. Qed.

Lemma post_invalid_film request w e :
  Py.truthy (data_get request "film") = true →
  Py.int (data_get request "film") = inl e → e ≠ Py.OverflowError →
  CommentCreateView_post request w
  = (Ok (validation_error "film ID must be a valid integer"), w).
Proof. intros. post_cases request w. Qed.

Lemma post_unknown_film request w film_id :
  Py.truthy (data_get request "film") = true →
  Py.int (data_get request "film") = inr film_id →
  fails_next w = false →
  filter (λ f, Film.id f = film_id) (films (db w)) = [] →
  CommentCreateView_post request w
  = (Ok (not_found ("Film with ID " +:+ pretty film_id +:+ " does not exist")),
     after_query (GetFilm film_id) w).
Proof.
  intros Ht Hi Hf Hrows. post_cases request w.
Qed.

(** Once the film is resolved, the comment field is checked: it must be
    present, must not trim to nothing, and must trim to at most 500
    characters. *)
Lemma post_comment_missing request w film :
  film_resolves request w film →
  Py.truthy (data_get request "comment") = false →
  CommentCreateView_post request w
  = (Ok (validation_error "comment text is required"),
     after_query (GetFilm (Film.id film)) w).
Proof. intros. post_cases request w. Qed.

Lemma post_comment_empty request w film :
  film_resolves request w film →
  Py.truthy (data_get request "comment") = true →
  comment_text_of request = "" →
  CommentCreateView_post request w
  = (Ok (validation_error "comment cannot be empty or whitespace only"),
     after_query (GetFilm (Film.id film)) w).
Proof. intros. post_cases request w. Qed.

Lemma post_comment_too_long request w film :
  film_resolves request w film →
  Py.truthy (data_get request "comment") = true →
  (500 < String.length (comment_text_of request))%nat →
  ∃ detail, CommentCreateView_post request w
  = (Ok (validation_error detail), after_query (GetFilm (Film.id film)) w).
Proof.
  intros Hr Ht Hl. post_cases request w; try by eauto.
  all: match goal with
       | H : comment_text_of _ = "" |- _ => rewrite H in Hl; simpl in Hl; lia
       end.
Qed.

Lemma post_creates request w film :
  film_resolves request w film →
  Py.truthy (data_get request "comment") = true →
  comment_text_of request ≠ "" →
  (String.length (comment_text_of request) ≤ 500)%nat →
  fails_next (after_query (GetFilm (Film.id film)) w) = false →
  CommentCreateView_post request w
  = (Ok (mkResponse
           (CommentData
              (mkCommentView (comments_seq (db w) + 1)
                 (comment_text_of request) (now w) (Film.title film)))
           HTTP_201_CREATED),
     with_comment (new_comment request w film)
       [GetFilm (Film.id film); InsertComment (Film.id film)] w).
Proof. intros. post_cases request w. Qed.

(** C1, as the code has it. A successful [createComment] appends the
    comment, stamped with the server's clock, to the comments of the film it
    names, whose number of comments goes up by one, and deletes the
    [films_list] key. The next [listFilms] over that store therefore asks
    the store and returns one view per catalog row: the row shows the new
    number of comments of the film when the film is the first local film
    with the row's title, and the comment count it had before otherwise. So
    the list reflects the comments of the film when the film is the first
    local film with its title and the catalog has a row with that title. *)
Theorem createComment_invalidates_film_list request w resp w1 :
  CommentCreateView_post request w = (Ok resp, w1) →
  status resp = HTTP_201_CREATED →
  ∃ film,
    film ∈ films (db w) ∧
    comments (db w1) = (comments (db w) ++ [new_comment request w film])%list ∧
    films (db w1) = films (db w) ∧
    film_caches (db w1) = film_caches (db w) ∧
    data resp = CommentData
                  (mkCommentView (comments_seq (db w) + 1)
                     (comment_text_of request) (now w) (Film.title film)) ∧
    cache w1 = delete FILMS_CACHE_KEY (cache w) ∧
    cached FILMS_CACHE_KEY w1 = None ∧
    number_of_comments (Film.id film) (comments (db w1))
    = number_of_comments (Film.id film) (comments (db w)) + 1 ∧
    ∀ request2 w2,
      db w2 = db w1 →
      cache w2 !! FILMS_CACHE_KEY = cache w1 !! FILMS_CACHE_KEY →
      store_up w2 →
      ∃ l w3 qs rows,
        FilmsListView_get request2 w2
        = (Ok (mkResponse (FilmListData l) HTTP_200_OK), w3) ∧
        queries w3 = (queries w2 ++ SelectFilmCaches :: qs)%list ∧
        l = films_list_of (db w1) ∧
        rows ≡ₚ film_caches (db w) ∧
        Forall2
          (λ row v,
             ∃ before,
               resolved_count (db w) (FilmCache.title row) before ∧
               resolved_count (db w1) (FilmCache.title row) (fv_comment_count v) ∧
               (first_match (db w) (FilmCache.title row) film →
                v = view_with row
                      (number_of_comments (Film.id film) (comments (db w1)))) ∧
               (¬ first_match (db w) (FilmCache.title row) film →
                v = view_with row before))
          rows l ∧
        (first_match (db w) (Film.title film) film →
         (∃ row, row ∈ film_caches (db w) ∧
                 FilmCache.title row = Film.title film) →
         reflects_comments_of (db w1) film l).
Proof.
  intros Hrun Hst.
  destruct (CommentCreateView_post_outcome request w) as (resp' & w' & E & O).
  rewrite E in Hrun. simplify_eq.
  destruct (post_outcome_created _ _ _ _ O Hst)
    as (film & Hres & _ & _ & _ & -> & ->).
  exists film. split; [by eapply film_resolves_in|].
  assert (cached FILMS_CACHE_KEY
            (with_comment (new_comment request w film)
               [GetFilm (Film.id film); InsertComment (Film.id film)] w) = None)
    as Hmiss.
  { unfold cached, with_comment. simpl. by rewrite lookup_delete_eq. }
  assert (number_of_comments (Film.id film)
            (comments (db w) ++ [new_comment request w film])
          = number_of_comments (Film.id film) (comments (db w)) + 1) as Hmore.
  { rewrite !number_of_comments_of_film, of_film_snoc, length_app. simpl.
    destruct (decide _); [simpl; lia|done]. }
  do 7 (split; [done|]).
  intros request2 w2 Hdb Hca Hup.
  assert (cached FILMS_CACHE_KEY w2 = None) as Hmiss2.
  { unfold cached. rewrite Hca. unfold with_comment. simpl.
    by rewrite lookup_delete_eq. }
  destruct (FilmsListView_get_miss request2 w2 Hmiss2 (store_up_answers _ Hup))
    as (l & w3 & Erun & _ & _ & _ & _ & (qs & Hq) & Hl).
  destruct (Hl Hup) as [-> _]. rewrite Hdb in Erun.
  exists (films_list_of
            (db (with_comment (new_comment request w film)
                   [GetFilm (Film.id film); InsertComment (Film.id film)] w))),
    w3, qs, (order_by by_release_date (film_caches (db w))).
  split; [done|]. split; [done|]. split; [done|].
  split; [apply order_by_Permutation|].
  match goal with |- ?F ∧ _ => assert F as HF end; [|split; [exact HF|]].
  2:{ intros Hfirst (row & Hrow & Htitle).
      rewrite <- (order_by_Permutation by_release_date) in Hrow.
      apply list_elem_of_lookup_1 in Hrow as [i Hi].
      destruct (Forall2_lookup_l _ _ _ _ _ HF Hi)
        as (v & Hv & before & _ & _ & Hyes & _).
      rewrite Htitle in Hyes. exists v.
      split; [by eapply list_elem_of_lookup_2|].
      rewrite (Hyes Hfirst). done. }
  unfold films_list_of, with_comment. simpl.
  apply Forall2_fmap_r, Forall_Forall2_diag, Forall_forall.
  intros row _. simpl.
  set (s1 := mkStore _ _ _ _ _).
  exists (comment_total (db w) (FilmCache.title row)).
  split; [apply comment_total_resolved|].
  split; [apply comment_total_resolved|].
  unfold view_of, view_with, s1.
  rewrite comment_total_with_comment. simpl.
  pose proof (comment_total_resolved (db w) (FilmCache.title row)) as Hbefore.
  destruct (first_film (FilmCache.title row) (db w)) as [f|] eqn:Hfirst.
  - pose proof (first_film_first_match _ _ _ Hfirst) as (Hf & Htf & Hminf).
    split.
    + intros (Hfilm & Ht & Hmin).
      assert (Film.id f = Film.id film) as Hid
        by (pose proof (Hminf film Hfilm Ht); pose proof (Hmin f Hf Htf); lia).
      rewrite decide_True by done. f_equal. rewrite Hmore.
      unfold comment_total. rewrite Hfirst, Hid.
      by rewrite number_of_comments_of_film.
    + intros Hnot. rewrite decide_False; [f_equal; lia|].
      intros Hid. apply Hnot.
      assert (f = film) as ->; [|done].
      destruct Hres as (_ & _ & _ & Hrows).
      assert (f ∈ filter (λ g, Film.id g = Film.id film) (films (db w))) as Hin
        by by apply list_elem_of_filter.
      rewrite Hrows in Hin. by apply list_elem_of_singleton in Hin.
  - pose proof (first_film_no_match _ _ Hfirst) as Hno. split.
    + intros (Hfilm & Ht & _). by destruct (Hno film Hfilm).
    + intros _. f_equal. lia.
Qed.

(** C7. [createComment] leaves every per-film detail entry of the cache as
    it was: it changes no key but [films_list], which it deletes when it
    creates the comment, and it changes nothing otherwise. *)
Theorem createComment_keeps_detail_entries request w external_id :
  ∃ resp w', CommentCreateView_post request w = (Ok resp, w') ∧
    cache w' !! film_cache_key external_id
    = cache w !! film_cache_key external_id ∧
    (∀ key, key ≠ FILMS_CACHE_KEY → cache w' !! key = cache w !! key) ∧
    (status resp = HTTP_201_CREATED →
     cache w' = delete FILMS_CACHE_KEY (cache w)) ∧
    (status resp ≠ HTTP_201_CREATED → cache w' = cache w).
Proof.
  destruct (CommentCreateView_post_outcome request w) as (resp & w' & E & O).
  exists resp, w'. split; [done|].
  destruct (post_outcome_cache _ _ _ _ O) as [_ [(Hs & _ & Hc)|(Hs & Hc)]];
    rewrite Hc.
  - repeat split; try done.
  - repeat split; try done.
    + apply lookup_delete_ne. intros E'. symmetry in E'.
      by apply film_key_not_list in E'.
    + intros key Hk. by apply lookup_delete_ne.
Qed.

(** C3, at the film id zero. The integer [0] is a valid integer, yet [if not
    film_id] takes it for a missing field: the answer is the validation
    error "film ID is required" in every world, also when no local film has
    the id 0, where the same id sent as the text "0" is answered with
    NotFound. *)
Theorem post_film_zero_taken_for_missing data is_staff w :
  Py.int (Py.Int 0) = inr 0 ∧
  CommentCreateView_post (mkRequest (<["film" := Py.Int 0]> data) is_staff) w
  = (Ok (validation_error "film ID is required"), w) ∧
  (fails_next w = false →
   filter (λ f, Film.id f = 0) (films (db w)) = [] →
   CommentCreateView_post (mkRequest (<["film" := Py.Str "0"]> data) is_staff) w
   = (Ok (not_found ("Film with ID " +:+ pretty 0 +:+ " does not exist")),
      after_query (GetFilm 0) w)).
Proof.
  split; [done|]. split.
  - apply post_missing_film. unfold data_get. simpl.
    by rewrite lookup_insert_eq.
  - intros Hf Hrows. apply post_unknown_film; try done.
    + unfold data_get. simpl. by rewrite lookup_insert_eq.
    + unfold data_get. simpl. by rewrite lookup_insert_eq.
Qed.

(** C4, at the film field 1.5. A JSON number with a fraction is not an
    integer, yet [int(film_id)] truncates it: with the local film 1 in the
    store, the request is answered 201 and the comment is stored on film
    1. *)
Theorem post_fractional_film_id_accepted data is_staff w film :
  store_up w →
  filter (λ f, Film.id f = 1) (films (db w)) = [film] →
  let request :=
    mkRequest (<["film" := Py.Float (Py.Finite 3 (-1))]>
                 (<["comment" := Py.Str "Great!"]> data)) is_staff in
  ∃ w', CommentCreateView_post request w
        = (Ok (mkResponse
                 (CommentData
                    (mkCommentView (comments_seq (db w) + 1) "Great!" (now w)
                                   (Film.title film)))
                 HTTP_201_CREATED), w') ∧
        comments (db w')
        = (comments (db w)
           ++ [Comments.mk (comments_seq (db w) + 1) 1 "Great!" (now w)])%list.
Proof.
  intros Hup Hrows request.
  assert (Film.id film = 1) as Hid.
  { assert (film ∈ filter (λ f, Film.id f = 1) (films (db w))) as Hin
      by (rewrite Hrows; apply list_elem_of_here).
    by apply list_elem_of_filter in Hin as [? _]. }
  assert (data_get request "film" = Py.Float (Py.Finite 3 (-1))) as Hfilm.
  { unfold data_get, request. simpl. by rewrite lookup_insert_eq. }
  assert (data_get request "comment" = Py.Str "Great!") as Hcomment.
  { unfold data_get, request. simpl.
    rewrite lookup_insert_ne by done. by rewrite lookup_insert_eq. }
  assert (comment_text_of request = "Great!") as Htext.
  { unfold comment_text_of. by rewrite Hcomment. }
  assert (film_resolves request w film) as Hres.
  { unfold film_resolves. rewrite Hfilm, Hid.
    repeat split; try done. by apply store_up_answers. }
  eexists. split.
  - rewrite (post_creates request w film Hres).
    + by rewrite Htext.
    + by rewrite Hcomment.
    + by rewrite Htext.
    + rewrite Htext. simpl. lia.
    + unfold fails_next, after_query. simpl.
      unfold store_up in Hup. by rewrite Hup.
  - unfold with_comment, new_comment. simpl. by rewrite Htext, Hid.
Qed.

(** The validation that [post] does perform: a missing film field, a film
    field that [int] cannot read, and, once the film is resolved, an empty,
    a blank or an overlong comment are each answered with a validation
    error and store nothing; and a stored comment is trimmed, with 1 to 500
    characters. *)
Lemma createComment_validation request w :
  (request_data request !! "film" = None →
   CommentCreateView_post request w
   = (Ok (validation_error "film ID is required"), w)) ∧
  (∀ e, Py.truthy (data_get request "film") = true →
        Py.int (data_get request "film") = inl e → e ≠ Py.OverflowError →
        CommentCreateView_post request w
        = (Ok (validation_error "film ID must be a valid integer"), w)) ∧
  (∀ film s, film_resolves request w film →
     data_get request "comment" = Py.Str s →
     s = "" ∨ Py.all_space s = true ∨ (500 < String.length (Py.strip s))%nat →
     ∃ resp,
       CommentCreateView_post request w
       = (Ok resp, after_query (GetFilm (Film.id film)) w) ∧
       is_validation_error resp) ∧
  (∀ resp w', CommentCreateView_post request w = (Ok resp, w') →
     status resp = HTTP_201_CREATED →
     ∃ row, comments (db w') = (comments (db w) ++ [row])%list ∧
            Py.strip (Comments.comment row) = Comments.comment row ∧
            (1 ≤ String.length (Comments.comment row) ≤ 500)%nat).
Proof.
  split; [|split; [|split]].
  - intros Hnone. apply post_missing_film. unfold data_get. by rewrite Hnone.
  - intros e. apply post_invalid_film.
  - intros film s Hres Hc Hs.
    assert (comment_text_of request = Py.strip s) as Htext
      by (unfold comment_text_of; by rewrite Hc).
    assert (∀ detail, is_validation_error (validation_error detail)) as Hv
      by (intros detail; split; [done|by eexists]).
    destruct (decide (s = "")) as [->|Hne].
    { eexists. split; [|apply Hv].
      apply post_comment_missing; [done|]. by rewrite Hc. }
    assert (Py.truthy (data_get request "comment") = true) as Ht.
    { rewrite Hc. simpl. by destruct s. }
    destruct Hs as [?|[Hs|Hs]]; [done| |].
    + eexists. split; [|apply Hv]. apply post_comment_empty; try done.
      rewrite Htext. by apply strip_all_space.
    + destruct (post_comment_too_long request w film) as [detail ->];
        try done; [by rewrite Htext|].
      eexists. split; [done|apply Hv].
  - intros resp w' Hrun Hst.
    destruct (CommentCreateView_post_outcome request w) as (resp' & w2 & E & O).
    rewrite E in Hrun. simplify_eq.
    destruct (post_outcome_created _ _ _ _ O Hst)
      as (film & _ & _ & Hne & Hle & _ & ->).
    exists (new_comment request w film). simpl. split; [done|].
    unfold comment_text_of in *. split; [apply strip_idem|].
    destruct (Py.strip _); [done|]. simpl in *. lia.
Qed.

(** ** The film list, continued *)

(** C2. The guarded resolution of a row's comment count never raises and
    leaves store and cache alone. When the resolution raises, the count is
    zero; when it returns, the count is the number of comments of the first
    local film whose title is the row's title, and zero when no local film
    has that title; over a store that answers it returns. So on a miss,
    once the listing query is answered, [listFilms] answers 200 with one
    view per catalog row whatever the store does afterwards: each view
    shows its row's comment count or zero, and all of them the comment
    count when the store keeps answering. *)
Theorem comment_count_defaults_to_zero :
  (∀ title w, ∃ n w',
     comment_count_for title w = (Ok n, w') ∧
     db w' = db w ∧ cache w' = cache w ∧
     ((∃ e, count_comments title w = (Raise e, w')) ∧ n = 0 ∨
      count_comments title w = (Ok n, w') ∧ resolved_count (db w) title n) ∧
     (store_up w → resolved_count (db w) title n)) ∧
  (∀ request w,
     cached FILMS_CACHE_KEY w = None → fails_next w = false →
     ∃ l w' rows,
       FilmsListView_get request w
       = (Ok (mkResponse (FilmListData l) HTTP_200_OK), w') ∧
       rows ≡ₚ film_caches (db w) ∧
       Forall2 (λ row v,
                  ∃ n, v = view_with row n ∧
                       (n = 0 ∨ resolved_count (db w) (FilmCache.title row) n))
               rows l ∧
       (store_up w →
        Forall2 (λ row v,
                   ∃ n, v = view_with row n ∧
                        resolved_count (db w) (FilmCache.title row) n)
                rows l)).
Proof.
  split.
  - intros title w.
    destruct (comment_count_for_run title w) as (n & w' & E & Hn).
    exists n, w'. split; [done|].
    assert (∃ r, count_comments title w = (r, w')) as [r Hr].
    { destruct Hn as [[[e He] _]|He]; eauto. }
    destruct (count_comments_frame _ _ _ _ Hr) as (Hd & Hc & _).
    repeat split; try done.
    + destruct Hn as [Hn|Hn]; [by left|right]. split; [done|].
      apply count_comments_result in Hn as ->. apply comment_total_resolved.
    + intros Hup.
      destruct (count_comments_up title w Hup) as (w2 & E2 & _).
      destruct Hn as [[[e He] _]|He]; rewrite E2 in *; simplify_eq.
      apply comment_total_resolved.
  - intros request w Hc Hf.
    destruct (FilmsListView_get_miss request w Hc Hf)
      as (l & w' & E & HF & _ & _ & _ & _ & Hup).
    exists l, w', (order_by by_release_date (film_caches (db w))).
    split; [done|]. split; [apply order_by_Permutation|]. split.
    + eapply Forall2_impl; [exact HF|].
      intros row [i t d n] (Hi & Ht & Hd & Hn). simpl in *. subst.
      exists n. split; [done|].
      destruct Hn as [->| ->]; [right; apply comment_total_resolved|by left].
    + intros Hu. destruct (Hup Hu) as [-> _]. unfold films_list_of.
      apply Forall2_fmap_r, Forall_Forall2_diag, Forall_forall.
      intros row _. simpl. eexists. split; [reflexivity|].
      apply comment_total_resolved.
Qed.

(** *** The list entry of the cache along a run *)

Lemma FilmDetailView_get_sorted request film_id w r w' :
  FilmDetailView_get request film_id w = (r, w') →
  list_entry_sorted w → list_entry_sorted w'.
Proof.
  intros Hrun Hinv.
  destruct (FilmDetailView_get_outcome request film_id w) as (resp & w2 & E & O).
  rewrite E in Hrun. simplify_eq. unfold list_entry_sorted in *.
  destruct O as [| ? ? _ _ _ _ Hc | ? ? ? _ _ _ _ _ _ Hc _ | ? ? _ _ _ Hc];
    try done; rewrite Hc; try done.
  rewrite lookup_insert_ne; [done|apply film_key_not_list].
Qed.

Lemma CommentCreateView_post_sorted request w r w' :
  CommentCreateView_post request w = (r, w') →
  list_entry_sorted w → list_entry_sorted w'.
Proof.
  intros Hrun Hinv.
  destruct (CommentCreateView_post_outcome request w) as (resp & w2 & E & O).
  rewrite E in Hrun. simplify_eq. unfold list_entry_sorted in *.
  destruct (post_outcome_cache _ _ _ _ O) as [_ [(_ & _ & Hc)|(_ & Hc)]];
    rewrite Hc; [done|].
  by rewrite lookup_delete_eq.
Qed.

Lemma FilmConfig_ready_sorted run_main w r w' :
  FilmConfig_ready run_main w = (r, w') →
  list_entry_sorted w → list_entry_sorted w'.
Proof.
  intros Hrun Hinv. unfold FilmConfig_ready in Hrun.
  destruct run_main; [|by mred].
  rewrite try_except_run, bind_run, cached_get in Hrun.
  destruct (cached "films_list" w) as [v|] eqn:Hc; [by mred|].
  rewrite bind_run in Hrun. unfold FilmCache_exists in Hrun.
  destruct (execute ExistsFilmCaches _ w) as [[b|e] w1] eqn:E1;
    pose proof (execute_frame _ _ _ _ _ E1) as (Hc1 & Hn1 & _ & _).
  2:{ mred. unfold list_entry_sorted. by rewrite Hc1. }
  destruct b.
  2:{ mred. unfold list_entry_sorted. by rewrite Hc1. }
  rewrite bind_run in Hrun. unfold FilmCache_all_order_by_release_date in Hrun.
  destruct (execute SelectFilmCaches _ w1) as [[rows|e] w2] eqn:E2;
    pose proof (execute_frame _ _ _ _ _ E2) as (Hc2 & Hn2 & _ & _).
  2:{ mred. unfold list_entry_sorted. by rewrite Hc2, Hc1. }
  assert (rows = order_by by_release_date (film_caches (db w1))) as ->.
  { unfold execute in E2. destruct (faults w1) as [|[msg|] rest]; by simplify_eq. }
  rewrite bind_run in Hrun.
  destruct (for_each_film_view_run
              (order_by by_release_date (film_caches (db w1))) w2)
    as (l & w3 & E3 & _ & Hc3 & _ & _ & HF & _).
  rewrite E3 in Hrun. unfold cache_set in Hrun. mred.
  unfold list_entry_sorted. simpl. rewrite lookup_insert_eq.
  intros v expiry [= <- <-]. exists l. split; [done|].
  assert (db w2 = db w1) as Hd by (by apply execute_reads in E2).
  rewrite Hd in HF. eapply views_sorted; [exact HF|].
  apply StronglySorted_order_by; apply _.
Qed.

(** ** The sync command *)

Lemma update_or_create_frame film_id title release_date w r w' :
  FilmCache_update_or_create film_id title release_date w = (r, w') →
  cache w' = cache w ∧ now w' = now w.
Proof.
  unfold FilmCache_update_or_create. rewrite bind_run. intros H.
  destruct (execute (GetFilmCache film_id) _ w) as [[found|e] w1] eqn:E1;
    pose proof (execute_frame _ _ _ _ _ E1) as (Hc1 & Hn1 & _ & _).
  2:{ simplify_eq. done. }
  rewrite bind_run in H. unfold timezone_now in H.
  pose proof (execute_frame _ _ _ _ _ H) as (Hc2 & Hn2 & _ & _).
  split; congruence.
Qed.

Lemma sync_loop_frame films_data : ∀ k u c out w r w',
  sync_loop films_data k u c out w = (r, w') →
  cache w' = cache w ∧ now w' = now w.
Proof.
  induction films_data as [|film_data rest IH]; intros k u c out w r w' H.
  - simpl in H. by mred.
  - simpl in H. rewrite bind_run in H.
    destruct (FilmCache_update_or_create _ _ _ w) as [[[row created]|e] w1] eqn:E.
    + apply update_or_create_frame in E as [Hc Hn].
      apply IH in H as [Hc' Hn']. split; congruence.
    + apply update_or_create_frame in E as [Hc Hn]. by simplify_eq.
Qed.

Lemma Command_handle_sorted films_data w r w' :
  Command_handle films_data w = (r, w') →
  list_entry_sorted w → list_entry_sorted w'.
Proof.
  intros H Hinv. unfold Command_handle in H.
  destruct films_data as [message|films_data]; [by mred|].
  rewrite bind_run in H.
  destruct (sync_loop films_data 0 0 0 _ w) as [[[[[k u] c] out]|e] w1] eqn:E;
    apply sync_loop_frame in E as [Hc _].
  - unfold cache_delete in H. rewrite bind_run in H. mred.
    unfold list_entry_sorted. simpl. by rewrite lookup_delete_eq.
  - simplify_eq. unfold list_entry_sorted. by rewrite Hc.
Qed.

(** Along every run, the list entry of the cache is a film list sorted by
    release date. *)
Lemma reachable_list_entry_sorted w : reachable w → list_entry_sorted w.
Proof.
  intros Hreach. induction Hreach as [w Hempty|w w' _ IH Hstep].
  - unfold list_entry_sorted. rewrite Hempty. intros v expiry.
    by rewrite lookup_empty.
  - destruct Hstep as [? ? ? ? H|? ? ? ? ? H|? ? ? ? H|? ? ? ? H|? ? ? ? H|? ? Hc _].
    + by eapply FilmsListView_get_sorted.
    + by eapply FilmDetailView_get_sorted.
    + by eapply CommentCreateView_post_sorted.
    + by eapply FilmConfig_ready_sorted.
    + by eapply Command_handle_sorted.
    + unfold list_entry_sorted. by rewrite Hc.
Qed.

(** C5. Along every run of the service from an empty cache, a film list
    that [listFilms] returns is sorted ascending by release date, whether
    it was assembled from the store or served from the cache. *)
Theorem listFilms_sorted w request resp w' :
  reachable w →
  FilmsListView_get request w = (Ok resp, w') →
  status resp = HTTP_200_OK →
  ∃ l, data resp = FilmListData l ∧ sorted_by_release_date l.
Proof.
  intros Hreach Hrun Hst.
  pose proof (reachable_list_entry_sorted _ Hreach) as Hinv.
  destruct (cached FILMS_CACHE_KEY w) as [v|] eqn:Hc.
  - rewrite (FilmsListView_get_hit _ _ _ Hc) in Hrun.
    unfold cached in Hc.
    destruct (cache w !! FILMS_CACHE_KEY) as [[v' expiry]|] eqn:El; [|done].
    destruct (now w <? expiry); [|done].
    destruct (Hinv _ _ El) as (l & -> & Hl). simplify_eq. by exists l.
  - destruct (fails_next w) eqn:Hf.
    + destruct (FilmsListView_get_down request w Hc Hf) as (detail & w2 & E & _).
      rewrite E in Hrun. by simplify_eq.
    + destruct (FilmsListView_get_miss request w Hc Hf)
        as (l & w2 & E & HF & _).
      rewrite E in Hrun. simplify_eq. exists l. split; [done|].
      eapply views_sorted; [exact HF|].
      apply StronglySorted_order_by; apply _.
Qed.

(** C6. When [listFilms] has answered 200, the list key holds that answer
    until an expiry which, on a miss, is ten minutes after the call; and
    every call made before the expiry, while the entry has not been
    replaced or deleted, returns the same answer and leaves the world as it
    found it: no statement is sent to the store. *)
Theorem listFilms_repeat_within_ttl request w body w1 :
  FilmsListView_get request w = (Ok (mkResponse body HTTP_200_OK), w1) →
  ∃ expiry,
    cache w1 !! FILMS_CACHE_KEY = Some (body, expiry) ∧
    now w1 < expiry ∧
    (cached FILMS_CACHE_KEY w = None → expiry = now w + CACHE_TTL) ∧
    ∀ request2 w2,
      cache w2 !! FILMS_CACHE_KEY = cache w1 !! FILMS_CACHE_KEY →
      now w2 < expiry →
      FilmsListView_get request2 w2
      = (Ok (mkResponse body HTTP_200_OK), w2) ∧
      queries (FilmsListView_get request2 w2).2 = queries w2.
Proof.
  intros Hrun.
  assert (∃ expiry, cache w1 !! FILMS_CACHE_KEY = Some (body, expiry) ∧
            now w1 < expiry ∧
            (cached FILMS_CACHE_KEY w = None → expiry = now w + CACHE_TTL))
    as (expiry & Hl & Hlt & Hmiss).
  { destruct (cached FILMS_CACHE_KEY w) as [v|] eqn:Hc.
    - rewrite (FilmsListView_get_hit _ _ _ Hc) in Hrun.
      assert (w1 = w ∧ v = body) as [-> ->] by (by simplify_eq).
      unfold cached in Hc.
      destruct (cache w !! FILMS_CACHE_KEY) as [[v' expiry]|]; [|done].
      destruct (Z.ltb_spec (now w) expiry); [|done]. simplify_eq.
      exists expiry. done.
    - destruct (fails_next w) eqn:Hf.
      + destruct (FilmsListView_get_down request w Hc Hf) as (detail & w2 & E & _).
        rewrite E in Hrun. by simplify_eq.
      + destruct (FilmsListView_get_miss request w Hc Hf)
          as (l & w2 & E & _ & _ & Hn & Hca & _).
        rewrite E in Hrun. simplify_eq.
        exists (now w + CACHE_TTL). rewrite Hca, lookup_insert_eq, Hn.
        unfold CACHE_TTL. repeat split; try done. lia. }
  exists expiry. repeat split; try done.
  - apply FilmsListView_get_hit. unfold cached. rewrite H, Hl.
    by destruct (Z.ltb_spec (now w2) expiry); [|lia].
  - rewrite (FilmsListView_get_hit request2 w2 body); [done|].
    unfold cached. rewrite H, Hl.
    by destruct (Z.ltb_spec (now w2) expiry); [|lia].
Qed.

(** ** The film detail, continued *)

(** C8. For an external id that no catalog row carries and that has no
    live cache entry, [getFilm] answers NotFound (404), not a server error,
    whenever the store answers the lookup. *)
Theorem getFilm_unknown_not_found request external_id w :
  cached (film_cache_key external_id) w = None →
  with_film_id (pretty external_id) (film_caches (db w)) = [] →
  fails_next w = false →
  ∃ resp w',
    FilmDetailView_get request external_id w = (Ok resp, w') ∧
    is_not_found resp ∧
    status resp ≠ HTTP_500_INTERNAL_SERVER_ERROR.
Proof.
  intros Hc Hrows Hf.
  destruct (FilmDetailView_get_outcome request external_id w)
    as (resp & w' & E & O).
  exists resp, w'. split; [done|].
  destruct O as [v Hv| | film ? ? _ _ Hr|? ? _ [?|Hl]]; try congruence.
  - split; [|done]. split; [done|]. by eexists.
  - rewrite Hrows in Hl. simpl in Hl. lia.
Qed.

(** C10. [getFilm] writes the cache only when it answers 200 after a miss,
    under the key of the id it was asked for. When it answers NotFound, the
    cache and the store are as before and the store was queried once; and
    every later call for that id, the cache being the same, queries the
    store again. *)
Theorem getFilm_not_found_not_cached request external_id w resp w' :
  FilmDetailView_get request external_id w = (Ok resp, w') →
  db w' = db w ∧
  (cache w' = cache w ∨
   status resp = HTTP_200_OK ∧
   cache w' = <[film_cache_key external_id := (data resp, now w + CACHE_TTL)]>
                (cache w)) ∧
  (status resp = HTTP_404_NOT_FOUND →
   cache w' = cache w ∧
   queries w' = (queries w ++ [GetFilmCache (pretty external_id)])%list ∧
   ∀ request2 w2,
     cache w2 = cache w' → now w ≤ now w2 →
     ∃ qs, queries (FilmDetailView_get request2 external_id w2).2
           = (queries w2 ++ GetFilmCache (pretty external_id) :: qs)%list).
Proof.
  intros Hrun.
  destruct (FilmDetailView_get_outcome request external_id w)
    as (resp0 & w0 & E & O).
  rewrite E in Hrun. simplify_eq.
  destruct O as [v Hv|detail w' Hc Hf Hrows Hd Hca Hn Hq
                |film v w' Hc Hf Hrows HF Hd Hn Hca Hq
                |detail w' Hc Hor Hd Hca Hn Hq]; simpl.
  - split; [done|]. split; [by left|]. done.
  - split; [done|]. split; [by left|]. intros _. repeat split; try done.
    intros request2 w2 Hca2 Hn2.
    assert (cached (film_cache_key external_id) w2 = None) as Hc2.
    { unfold cached in *. rewrite Hca2, Hca.
      destruct (cache w !! film_cache_key external_id) as [[v e]|]; [|done].
      destruct (Z.ltb_spec (now w) e); [done|].
      by destruct (Z.ltb_spec (now w2) e); [lia|]. }
    destruct (FilmDetailView_get_outcome request2 external_id w2)
      as (resp2 & w3 & E2 & O2).
    rewrite E2. simpl.
    destruct O2 as [v Hv| ? ? _ _ _ _ _ _ Hq2 | ? ? ? _ _ _ _ _ _ _ Hq2
                   | ? ? _ _ _ _ _ Hq2]; try congruence.
    all: by exists nil.
  - split; [done|]. split; [by right|]. done.
  - split; [done|]. split; [by left|]. done.
Qed.

(** ** The sync command, continued *)

Lemma NoDup_fmap_eq {A B} (f : A → B) (l : list A) x y :
  NoDup (f <$> l) → x ∈ l → y ∈ l → f x = f y → x = y.
Proof.
  induction l as [|a l IH]; [by intros _ ?%elem_of_nil|].
  rewrite fmap_cons, NoDup_cons. intros [Ha Hl] Hx Hy Hf.
  apply elem_of_cons in Hx as [->|Hx]; apply elem_of_cons in Hy as [->|Hy].
  - done.
  - destruct Ha. rewrite Hf. by apply list_elem_of_fmap_2.
  - destruct Ha. rewrite <- Hf. by apply list_elem_of_fmap_2.
  - by apply IH.
Qed.

Lemma with_film_id_in film_id rows r :
  r ∈ with_film_id film_id rows ↔ FilmCache.film_id r = film_id ∧ r ∈ rows.
Proof.
  unfold with_film_id.
  apply (list_elem_of_filter (λ r, FilmCache.film_id r = film_id)).
Qed.

Lemma with_film_id_at_most_one film_id rows :
  NoDup (FilmCache.film_id <$> rows) →
  with_film_id film_id rows = [] ∨ ∃ r, with_film_id film_id rows = [r].
Proof.
  intros Hnd.
  destruct (with_film_id film_id rows) as [|r [|r' l]] eqn:E; eauto.
  exfalso.
  assert (r ∈ with_film_id film_id rows) as Hr by (rewrite E; set_solver).
  assert (r' ∈ with_film_id film_id rows) as Hr' by (rewrite E; set_solver).
  apply with_film_id_in in Hr as [Hf Hr], Hr' as [Hf' Hr'].
  assert (r = r') as <- by (eapply NoDup_fmap_eq; eauto; congruence).
  assert (NoDup (with_film_id film_id rows)) as Hnd'.
  { unfold with_film_id. apply NoDup_filter. by eapply NoDup_fmap_1. }
  rewrite E in Hnd'. apply NoDup_cons in Hnd' as [Hn _]. set_solver.
Qed.

Lemma replace_row_fmap {B} (f : FilmCache.t → B) row rows :
  (∀ r, r ∈ rows → FilmCache.id r = FilmCache.id row → f r = f row) →
  f <$> replace_row row rows = f <$> rows.
Proof.
  unfold replace_row. induction rows as [|a l IH]; intros H; [done|].
  rewrite !fmap_cons. f_equal.
  - destruct (decide _); [|done]. symmetry. apply H; [set_solver|done].
  - apply IH. intros r Hr. apply H. set_solver.
Qed.

Lemma replace_row_filter film_id row rows :
  (∀ r, r ∈ rows → FilmCache.id r = FilmCache.id row →
        FilmCache.film_id r = FilmCache.film_id row) →
  with_film_id film_id (replace_row row rows)
  = replace_row row (with_film_id film_id rows).
Proof.
  unfold replace_row, with_film_id.
  induction rows as [|a l IH]; intros H; [done|].
  rewrite fmap_cons, !filter_cons.
  assert (FilmCache.film_id
            (if decide (FilmCache.id a = FilmCache.id row) then row else a)
          = FilmCache.film_id a) as Hsame.
  { destruct (decide _); [|done]. symmetry. apply H; [set_solver|done]. }
  rewrite Hsame. destruct (decide (FilmCache.film_id a = film_id)).
  - rewrite fmap_cons. f_equal. apply IH. intros r Hr. apply H. set_solver.
  - apply IH. intros r Hr. apply H. set_solver.
Qed.

Lemma replace_row_none row rows :
  (∀ r, r ∈ rows → FilmCache.id r ≠ FilmCache.id row) →
  replace_row row rows = rows.
Proof.
  unfold replace_row. induction rows as [|a l IH]; intros H; [done|].
  rewrite fmap_cons. f_equal.
  - destruct (decide _) as [E|]; [|done]. destruct (H a); [set_solver|done].
  - apply IH. intros r Hr. apply H. set_solver.
Qed.

(** One upsert over a store that answers: afterwards exactly one row
    carries the film id, with the title and the date given; the rows of the
    other film ids are as before. *)
Lemma update_or_create_run film_id title release_date w :
  store_up w → catalog_ok (db w) →
  ∃ row created w',
    FilmCache_update_or_create film_id (Some title) (Some release_date) w
    = (Ok (row, created), w') ∧
    FilmCache.film_id row = film_id ∧ FilmCache.title row = title ∧
    FilmCache.release_date row = release_date ∧
    FilmCache.last_synced_at row = now w ∧
    with_film_id film_id (film_caches (db w')) = [row] ∧
    (∀ other, other ≠ film_id →
       with_film_id other (film_caches (db w'))
       = with_film_id other (film_caches (db w))) ∧
    catalog_ok (db w') ∧ store_up w' ∧ cache w' = cache w ∧ now w' = now w.
Proof.
  intros Hup (Hu & Hpk & Hseq). unfold store_up in Hup.
  unfold FilmCache_update_or_create. rewrite bind_run.
  unfold execute at 1. rewrite Hup.
  destruct (with_film_id_at_most_one film_id _ Hu) as [E|[old E]];
    rewrite E; simpl; unfold execute; simpl.
  - eexists _, _, _. split; [done|]. simpl.
    repeat split; try done.
    + unfold with_film_id in *. rewrite filter_app, E. simpl.
      rewrite filter_cons. simpl. by rewrite decide_True.
    + intros other Hne. unfold with_film_id. rewrite filter_app.
      rewrite filter_cons. simpl. rewrite decide_False by done.
      by rewrite filter_nil, app_nil_r.
    + unfold unique_film_ids. simpl. rewrite fmap_app. simpl.
      apply NoDup_app. split; [done|]. split; [|apply NoDup_singleton].
      intros x Hx ->%list_elem_of_singleton.
      apply list_elem_of_fmap in Hx as (r & Hr & Hin).
      assert (r ∈ with_film_id film_id (film_caches (db w))) as Hfalse
        by (by apply with_film_id_in).
      rewrite E in Hfalse. by apply elem_of_nil in Hfalse.
    + simpl. rewrite fmap_app. simpl.
      apply NoDup_app. split; [done|]. split; [|apply NoDup_singleton].
      intros x Hx ->%list_elem_of_singleton.
      apply list_elem_of_fmap in Hx as (r & Hr & Hin).
      rewrite Forall_forall in Hseq. specialize (Hseq r Hin). lia.
    + simpl. apply Forall_app. split.
      * eapply Forall_impl; [exact Hseq|]. simpl. intros; lia.
      * apply Forall_singleton. simpl. lia.
  - assert (old ∈ with_film_id film_id (film_caches (db w))) as Hold
      by (rewrite E; set_solver).
    apply with_film_id_in in Hold as [Hfid Hin].
    set (row := FilmCache.mk (FilmCache.id old) film_id title release_date (now w)).
    assert (∀ r, r ∈ film_caches (db w) →
                 FilmCache.id r = FilmCache.id row → r = old) as Hsame.
    { intros r Hr Hid. by eapply (NoDup_fmap_eq FilmCache.id). }
    assert (∀ r, r ∈ film_caches (db w) →
                 FilmCache.id r = FilmCache.id row →
                 FilmCache.film_id r = FilmCache.film_id row) as Hkeep.
    { intros r Hr Hid. by rewrite (Hsame r Hr Hid). }
    eexists _, _, _. split; [done|]. simpl.
    repeat split; try done.
    + rewrite replace_row_filter by done. rewrite E.
      unfold replace_row. simpl. by rewrite decide_True.
    + intros other Hne. rewrite replace_row_filter by done.
      apply replace_row_none. intros r [Hr Hin']%with_film_id_in Hid.
      rewrite (Hsame r Hin' Hid) in Hr. congruence.
    + unfold unique_film_ids. simpl. by rewrite replace_row_fmap.
    + simpl. rewrite replace_row_fmap; [done|]. by intros.
    + simpl. rewrite Forall_forall in Hseq. apply Forall_forall.
      intros r (r0 & -> & Hr0)%list_elem_of_fmap.
      destruct (decide _); [|by apply Hseq]. simpl. by apply Hseq.
Qed.

(** The loop over complete records and a store that answers: record [i]
    (from zero) is upserted under the film id [str(synced_count + 1 + i)],
    every record is counted once, as created or as updated, and the rows of
    the other film ids are as before. *)
Lemma sync_loop_run films_data : ∀ k u c out w,
  store_up w → catalog_ok (db w) → Forall complete films_data →
  ∃ u' c' out' w',
    sync_loop films_data k u c out w
    = (Ok (k + Z.of_nat (length films_data), u', c', out'), w') ∧
    u' + c' = u + c + Z.of_nat (length films_data) ∧ u ≤ u' ∧ c ≤ c' ∧
    store_up w' ∧ catalog_ok (db w') ∧ cache w' = cache w ∧ now w' = now w ∧
    (∀ i film_data, films_data !! i = Some film_data →
       ∃ row,
         with_film_id (pretty (k + 1 + Z.of_nat i)) (film_caches (db w')) = [row] ∧
         Some (FilmCache.title row) = rf_title film_data ∧
         Some (FilmCache.release_date row) = rf_release_date film_data ∧
         FilmCache.last_synced_at row = now w) ∧
    (∀ other,
       (∀ i, (i < length films_data)%nat → other ≠ pretty (k + 1 + Z.of_nat i)) →
       with_film_id other (film_caches (db w'))
       = with_film_id other (film_caches (db w))).
Proof.
  induction films_data as [|film_data rest IH]; intros k u c out w Hup Hok Hall.
  - exists u, c, out, w. simpl. rewrite ret_run, Z.add_0_r.
    repeat split; try done; try lia; by destruct Hok as (? & ? & ?).
  - apply Forall_cons in Hall as [[[title Ht] [date Hd]] Hall].
    simpl sync_loop. rewrite bind_run, Ht, Hd.
    destruct (update_or_create_run (pretty (k + 1)) title date w Hup Hok)
      as (row & created & w1 & -> & Hfid & Hti & Hda & Hls & Hone & Hother
          & Hok1 & Hup1 & Hc1 & Hn1).
    destruct (IH (k + 1)
                (if created then u else u + 1)
                (if created then c + 1 else c)
                (out ++ ["  " +:+ (if created then "Created" else "Updated")
                         +:+ ": " +:+ FilmCache.title row])%list
                w1 Hup1 Hok1 Hall)
      as (u' & c' & out' & w' & -> & Hsum & Hu & Hc & Hup' & Hok' & Hc' & Hn'
          & Hrows & Hframe).
    exists u', c', out', w'.
    replace (k + Z.of_nat (length (film_data :: rest)))
      with (k + 1 + Z.of_nat (length rest)) by (simpl; lia).
    split; [done|].
    repeat split; try done; try congruence;
      try (by destruct Hok' as (? & ? & ?)).
    + destruct created; simpl length; lia.
    + destruct created; lia.
    + destruct created; lia.
    + intros [|i] fd Hlook; simpl in Hlook.
      * assert (fd = film_data) as -> by congruence.
        exists row. rewrite Z.add_0_r.
        rewrite Hframe, Hone, Hti, Hda, Hls, Ht, Hd; [done|].
        intros i _ Heq. apply (inj pretty) in Heq. lia.
      * destruct (Hrows i fd Hlook) as (row' & Hr & Hti' & Hda' & Hls').
        exists row'.
        replace (k + 1 + Z.of_nat (S i)) with (k + 1 + 1 + Z.of_nat i) by lia.
        repeat split; try done. congruence.
    + intros other Hne. rewrite Hframe.
      * apply Hother. specialize (Hne 0%nat). rewrite Z.add_0_r in Hne.
        apply Hne. simpl. lia.
      * intros i Hi. specialize (Hne (S i)).
        replace (k + 1 + Z.of_nat (S i)) with (k + 1 + 1 + Z.of_nat i) in Hne
          by lia.
        apply Hne. simpl. lia.
Qed.

(** C9. Over a store that answers, the sync of [n] complete remote records
    upserts record [i] (counted from one) under the external identifier
    [str(i)], leaves the rows of every other identifier alone, reports
    created and updated counts that sum to [n], and ends by deleting the
    [films_list] key. *)
Theorem sync_assigns_sequential_ids films_data w :
  store_up w → catalog_ok (db w) → Forall complete films_data →
  ∃ out w' created updated,
    Command_handle (inr films_data) w = (Ok out, w') ∧
    last out = Some (newline +:+ "Sync complete! Total: "
                     +:+ pretty (Z.of_nat (length films_data))
                     +:+ ", Created: " +:+ pretty created
                     +:+ ", Updated: " +:+ pretty updated) ∧
    created + updated = Z.of_nat (length films_data) ∧
    0 ≤ created ∧ 0 ≤ updated ∧
    cache w' = delete "films_list" (cache w) ∧
    (∀ i film_data, films_data !! i = Some film_data →
       ∃ row,
         with_film_id (pretty (Z.of_nat i + 1)) (film_caches (db w')) = [row] ∧
         Some (FilmCache.title row) = rf_title film_data ∧
         Some (FilmCache.release_date row) = rf_release_date film_data ∧
         FilmCache.last_synced_at row = now w) ∧
    (∀ other,
       (∀ i, (i < length films_data)%nat → other ≠ pretty (Z.of_nat i + 1)) →
       with_film_id other (film_caches (db w'))
       = with_film_id other (film_caches (db w))) ∧
    catalog_ok (db w').
Proof.
  intros Hup Hok Hall. unfold Command_handle. rewrite bind_run.
  destruct (sync_loop_run films_data 0 0 0 ["Starting film sync..."] w
              Hup Hok Hall)
    as (u & c & out & w1 & -> & Hsum & Hu & Hc & _ & Hok1 & Hca & _ & Hrows
        & Hframe).
  rewrite bind_run. unfold cache_delete. simpl. rewrite ret_run.
  eexists _, _, c, u. split; [done|]. simpl.
  repeat split; try done; try lia; try (by destruct Hok1 as (? & ? & ?)).
  - by rewrite last_app.
  - by rewrite Hca.
  - intros i fd Hlook. destruct (Hrows i fd Hlook) as (row & Hr & Hrest).
    exists row. by replace (Z.of_nat i + 1) with (0 + 1 + Z.of_nat i) by lia.
  - intros other Hne. apply Hframe. intros i Hi.
    replace (0 + 1 + Z.of_nat i) with (Z.of_nat i + 1) by lia. by apply Hne.
Qed.

(** * Further properties of the handlers *)

(** ** The warm-up at startup *)

(** The ways [FilmConfig.ready] ends: it does nothing, it asks the store
    and caches nothing, or it caches the list. It never raises. *)
Lemma FilmConfig_ready_outcome run_main w :
  ∃ w', FilmConfig_ready run_main w = (Ok (), w') ∧
    db w' = db w ∧ now w' = now w ∧
    ((run_main = false ∨ is_Some (cached "films_list" w)) ∧ w' = w ∨
     run_main = true ∧ cached "films_list" w = None ∧ cache w' = cache w ∧
     (fails_next w = true ∨ film_caches (db w) = [] ∨
      fails_next (after_query ExistsFilmCaches w) = true) ∨
     run_main = true ∧ cached "films_list" w = None ∧
     fails_next w = false ∧ film_caches (db w) ≠ [] ∧
     fails_next (after_query ExistsFilmCaches w) = false ∧
     ∃ l,
       views_of_rows (db w) (order_by by_release_date (film_caches (db w))) l ∧
       cache w' = <["films_list" := (FilmListData l, now w + 60 * 10)]> (cache w) ∧
       (store_up w → l = films_list_of (db w))).
Proof.
  unfold FilmConfig_ready. destruct run_main.
  2:{ exists w. rewrite ret_run. repeat split; try done. left. auto. }
  rewrite try_except_run, bind_run, cached_get.
  destruct (cached "films_list" w) as [v|] eqn:Hc.
  { exists w. rewrite ret_run. repeat split; try done. left. eauto. }
  rewrite bind_run. unfold FilmCache_exists.
  destruct (fails_next w) eqn:Hf.
  { destruct (execute_fails ExistsFilmCaches
      (λ s, (Ok (match film_caches s with [] => false | _ => true end), s))
      w Hf) as [msg ->].
    rewrite ret_run. eexists. split; [done|]. simpl.
    split; [done|]. split; [done|]. right. left. repeat split; auto. }
  rewrite execute_answers by done. simpl.
  fold (after_query ExistsFilmCaches w).
  destruct (film_caches (db w)) as [|row0 rows0] eqn:Hrows.
  { rewrite ret_run. eexists. split; [done|]. simpl.
    split; [done|]. split; [done|]. right. left. repeat split; auto. }
  rewrite bind_run. unfold FilmCache_all_order_by_release_date.
  destruct (fails_next (after_query ExistsFilmCaches w)) eqn:Hf2.
  { destruct (execute_fails SelectFilmCaches
      (λ s, (Ok (order_by by_release_date (film_caches s)), s))
      _ Hf2) as [msg ->].
    rewrite ret_run. eexists. split; [done|]. simpl.
    split; [done|]. split; [done|]. right. left. repeat split; auto. }
  rewrite execute_answers by done. simpl. rewrite bind_run.
  set (w1 := mkWorld _ _ _ _ _).
  destruct (for_each_film_view_run
              (order_by by_release_date (film_caches (db w))) w1)
    as (l & w2 & E & Hd & Hca & Hn & _ & HF & Hup).
  rewrite E. unfold cache_set. simpl.
  eexists. split; [done|]. simpl.
  split; [by rewrite Hd|]. split; [by rewrite Hn|].
  right. right. repeat split; try done.
  exists l. rewrite Hca, Hn. simpl. rewrite <- Hrows. repeat split; try done.
  intros Hu. apply Hup. unfold store_up in *. simpl. by rewrite Hu.
Qed.

(** X1. [FilmConfig.ready] never raises and never writes the store; the only
    cache key it may change is [films_list]; and when it is not the main
    process, or a live list entry exists, it leaves the world as it is (no
    statement is sent). *)
Theorem ready_is_silent run_main w :
  ∃ w', FilmConfig_ready run_main w = (Ok (), w') ∧
    db w' = db w ∧
    (∀ key, key ≠ "films_list" → cache w' !! key = cache w !! key) ∧
    (run_main = false ∨ is_Some (cached "films_list" w) → w' = w).
Proof.
  destruct (FilmConfig_ready_outcome run_main w)
    as (w' & E & Hd & _ & [[_ ->]|[(Hr & Hc & Hca & _)|(Hr & Hc & _ & _ & _ & l & _ & Hca & _)]]).
  - exists w. done.
  - exists w'. repeat split; try done.
    + intros key _. by rewrite Hca.
    + intros [?|[v Hv]]; congruence.
  - exists w'. repeat split; try done.
    + intros key Hk. rewrite Hca. by apply lookup_insert_ne.
    + intros [?|[v Hv]]; congruence.
Qed.

(** X2. When the main process starts with no live list entry, a catalog
    that is not empty and a store that answers, [ready] caches the film
    list of the store for ten minutes: a [listFilms] within that time, with
    the entry in place, returns that list and sends nothing to the store,
    whatever the store has become. *)
Theorem ready_warms_film_list w :
  cached "films_list" w = None → store_up w → film_caches (db w) ≠ [] →
  ∃ w', FilmConfig_ready true w = (Ok (), w') ∧
    cache w' = <["films_list" := (FilmListData (films_list_of (db w)),
                                  now w + 600)]> (cache w) ∧
    ∀ request w2,
      cache w2 !! FILMS_CACHE_KEY = cache w' !! FILMS_CACHE_KEY →
      now w2 < now w + 600 →
      FilmsListView_get request w2
      = (Ok (mkResponse (FilmListData (films_list_of (db w))) HTTP_200_OK), w2).
Proof.
  intros Hc Hup Hrows.
  destruct (FilmConfig_ready_outcome true w)
    as (w' & E & _ & _ & [[[?|[v Hv]] _]|[(_ & _ & _ & Hno)|(_ & _ & _ & _ & _ & l & _ & Hca & Hl)]]);
    try congruence.
  - exfalso. unfold store_up in Hup.
    destruct Hno as [Hf|[?|Hf]]; try done;
      unfold fails_next, after_query in Hf; simpl in Hf; by rewrite Hup in Hf.
  - rewrite (Hl Hup) in Hca. exists w'. split; [done|]. split; [done|].
    intros request w2 Hsame Hnow. apply FilmsListView_get_hit.
    unfold cached. rewrite Hsame, Hca. unfold FILMS_CACHE_KEY.
    rewrite lookup_insert_eq.
    by destruct (Z.ltb_spec (now w2) (now w + 60 * 10)); [|lia].
Qed.

(** X3. With an empty catalog and a store that answers, [ready] caches
    nothing, whereas [listFilms] answers 200 with the empty list and caches
    it for ten minutes. *)
Theorem empty_catalog_warm_up_and_list request w :
  cached "films_list" w = None → fails_next w = false →
  film_caches (db w) = [] →
  (∃ w', FilmConfig_ready true w = (Ok (), w') ∧ cache w' = cache w) ∧
  (∃ w', FilmsListView_get request w
         = (Ok (mkResponse (FilmListData []) HTTP_200_OK), w') ∧
         cache w' = <[FILMS_CACHE_KEY := (FilmListData [], now w + CACHE_TTL)]>
                      (cache w)).
Proof.
  intros Hc Hf Hrows. split.
  - destruct (FilmConfig_ready_outcome true w)
      as (w' & E & _ & _ & [[[?|[v Hv]] _]|[(_ & _ & Hca & _)|(_ & _ & _ & Hne & _)]]);
      try congruence.
    by exists w'.
  - destruct (FilmsListView_get_miss request w Hc Hf)
      as (l & w' & E & HF & _ & _ & Hca & _).
    rewrite Hrows in HF. simpl in HF. apply Forall2_nil_inv_l in HF as ->.
    by exists w'.
Qed.

(** ** Server errors *)

Lemma FilmsListView_get_fails request w msg rest :
  cached FILMS_CACHE_KEY w = None → faults w = Some msg :: rest →
  FilmsListView_get request w
  = (Ok (mkResponse
           (ErrorData "An error occurred while fetching films"
              (if is_staff request then msg else "Internal server error"))
           HTTP_500_INTERNAL_SERVER_ERROR),
     mkWorld (db w) (cache w) (now w) rest (queries w ++ [SelectFilmCaches])).
Proof.
  intros Hc Hf. unfold FilmsListView_get.
  rewrite try_except_run, bind_run, cached_get, Hc, bind_run.
  unfold FilmCache_all_order_by_release_date, execute. rewrite Hf.
  by rewrite ret_run.
Qed.

(** A key that is missing or expired stays so while the cache is the same
    and time moves on. *)
Lemma cached_none_later key w w2 :
  cached key w = None → cache w2 = cache w → now w ≤ now w2 →
  cached key w2 = None.
Proof.
  unfold cached. intros Hc -> Hn.
  destruct (cache w !! key) as [[v e]|]; [|done].
  destruct (Z.ltb_spec (now w) e); [done|].
  by destruct (Z.ltb_spec (now w2) e); [lia|].
Qed.

(** X4. When the listing query fails on a miss, [listFilms] answers 500 with
    the store's message for a staff caller and a fixed text for anyone
    else, writes nothing to the cache or the store, and the next call over
    that cache sends the listing query again. *)
Theorem listFilms_failure_not_cached request w msg rest :
  cached FILMS_CACHE_KEY w = None → faults w = Some msg :: rest →
  ∃ w',
    FilmsListView_get request w
    = (Ok (mkResponse
             (ErrorData "An error occurred while fetching films"
                (if is_staff request then msg else "Internal server error"))
             HTTP_500_INTERNAL_SERVER_ERROR), w') ∧
    cache w' = cache w ∧ db w' = db w ∧
    ∀ request2 w2,
      cache w2 = cache w' → now w ≤ now w2 →
      ∃ qs, queries (FilmsListView_get request2 w2).2
            = (queries w2 ++ SelectFilmCaches :: qs)%list.
Proof.
  intros Hc Hf. eexists. split; [by apply FilmsListView_get_fails|].
  simpl. repeat split; try done.
  intros request2 w2 Hca Hn.
  assert (cached FILMS_CACHE_KEY w2 = None) as Hc2
    by (by eapply cached_none_later).
  destruct (faults w2) as [|[msg2|] rest2] eqn:Hf2.
  - destruct (FilmsListView_get_miss request2 w2 Hc2)
      as (l & w3 & -> & _ & _ & _ & _ & Hq & _); [|done].
    unfold fails_next. by rewrite Hf2.
  - rewrite (FilmsListView_get_fails request2 w2 msg2 rest2) by done.
    by exists nil.
  - destruct (FilmsListView_get_miss request2 w2 Hc2)
      as (l & w3 & -> & _ & _ & _ & _ & Hq & _); [|done].
    unfold fails_next. by rewrite Hf2.
Qed.

(** What the handler of the outermost [except Exception] gives a caller
    who is not staff, when the body itself answers no 500. *)
Lemma guarded_server_error request error (m : M Response) w resp w' :
  try_except m
    (λ e, mret (mkResponse (ErrorData error (error_detail request e))
                           HTTP_500_INTERNAL_SERVER_ERROR)) w
  = (Ok resp, w') →
  (∀ r w1, m w = (Ok r, w1) → status r ≠ HTTP_500_INTERNAL_SERVER_ERROR) →
  status resp = HTTP_500_INTERNAL_SERVER_ERROR →
  is_staff request = false →
  data resp = ErrorData error "Internal server error".
Proof.
  rewrite try_except_run. intros H Hbody Hst Hstaff.
  destruct (m w) as [[r|e] w1] eqn:E.
  - simplify_eq. by destruct (Hbody _ _ eq_refl).
  - mred. unfold error_detail. by rewrite Hstaff.
Qed.

(** Follow a run of a handler's body to each of its ends. *)
Ltac body_ends H :=
  repeat first
    [ rewrite bind_run in H
    | rewrite try_except_run in H
    | rewrite cached_get in H
    | rewrite ret_run in H
    | progress (unfold raise, try_except_kind, cache_set, cache_delete,
                  timezone_now in H)
    | match type of H with
      | context [match ?x with _ => _ end] => destruct x eqn:?
      end
    | progress simplify_eq/= ].

(** X5. The message of an exception reaches staff only: when [listFilms],
    [getFilm], [createComment] or [listComments] answers 500 to a caller
    who is not staff, the detail of the answer is the fixed text "Internal
    server error". *)
Theorem server_error_detail_for_staff_only request w :
  is_staff request = false →
  (∀ resp w', FilmsListView_get request w = (Ok resp, w') →
     status resp = HTTP_500_INTERNAL_SERVER_ERROR →
     data resp = ErrorData "An error occurred while fetching films"
                           "Internal server error") ∧
  (∀ film_id resp w', FilmDetailView_get request film_id w = (Ok resp, w') →
     status resp = HTTP_500_INTERNAL_SERVER_ERROR →
     data resp = ErrorData "An error occurred while fetching film details"
                           "Internal server error") ∧
  (∀ resp w', CommentCreateView_post request w = (Ok resp, w') →
     status resp = HTTP_500_INTERNAL_SERVER_ERROR →
     data resp = ErrorData "An error occurred while creating the comment"
                           "Internal server error") ∧
  (∀ film_id resp w',
     CommentsListView_get request film_id w = (Ok (CommentsError resp), w') →
     status resp = HTTP_500_INTERNAL_SERVER_ERROR →
     data resp = ErrorData "An error occurred while fetching comments"
                           "Internal server error").
Proof.
  intros Hstaff. split; [|split; [|split]].
  - intros resp w' Hrun Hst. unfold FilmsListView_get in Hrun.
    eapply guarded_server_error; [exact Hrun| |done|done].
    intros r w1 Hbody. body_ends Hbody; done.
  - intros film_id resp w' Hrun Hst. unfold FilmDetailView_get in Hrun.
    eapply guarded_server_error; [exact Hrun| |done|done].
    intros r w1 Hbody. body_ends Hbody; done.
  - intros resp w' Hrun Hst. unfold CommentCreateView_post in Hrun.
    eapply guarded_server_error; [exact Hrun| |done|done].
    intros r w1 Hbody. body_ends Hbody; done.
  - intros film_id resp w' Hrun Hst. unfold CommentsListView_get in Hrun.
    rewrite try_except_run in Hrun.
    match type of Hrun with
    | context [match ?m w with _ => _ end] =>
        destruct (m w) as [[r|e] w1] eqn:Hbody
    end.
    + simplify_eq. exfalso. body_ends Hbody; done.
    + mred. unfold error_detail. by rewrite Hstaff.
Qed.

(** ** The film detail and its cache entry *)

Lemma FilmDetailView_get_hit request film_id w v :
  cached (film_cache_key film_id) w = Some v →
  FilmDetailView_get request film_id w = (Ok (mkResponse v HTTP_200_OK), w).
Proof.
  intros Hc. unfold FilmDetailView_get.
  rewrite try_except_run, bind_run, cached_get, Hc. done.
Qed.

(** A miss over a store that answers, for an external id that one catalog
    row carries: the view of that row is cached under the key of the id
    and returned. *)
Lemma FilmDetailView_get_found request film_id w film :
  cached (film_cache_key film_id) w = None → store_up w →
  with_film_id (pretty film_id) (film_caches (db w)) = [film] →
  ∃ w', FilmDetailView_get request film_id w
        = (Ok (mkResponse (FilmData (view_of (db w) film)) HTTP_200_OK), w') ∧
    db w' = db w ∧ now w' = now w ∧
    cache w' = <[film_cache_key film_id :=
                   (FilmData (view_of (db w) film), now w + CACHE_TTL)]> (cache w).
Proof.
  intros Hc Hup Hrows. unfold FilmDetailView_get.
  rewrite try_except_run, bind_run, cached_get, Hc, bind_run.
  unfold try_except_kind, FilmCache_get.
  rewrite try_except_run, bind_run.
  rewrite execute_answers by (by apply store_up_answers).
  rewrite Hrows. simpl. rewrite bind_run.
  set (w1 := mkWorld _ _ _ _ _).
  assert (store_up w1) as Hup1.
  { unfold store_up in *. simpl. by rewrite Hup. }
  destruct (film_view_run film w1)
    as (v & w2 & -> & Hd & Hca & Hn & _ & _ & _ & _ & _ & Hv).
  destruct (Hv Hup1) as [_ ->]. simpl.
  eexists. split; [done|]. simpl. by rewrite Hd, Hca, Hn.
Qed.

(** X6. When [getFilm] has answered 200, the key of that id holds the answer
    until an expiry (ten minutes after a miss), and every call for the id
    before the expiry, with the entry in place, returns the same answer
    and leaves the world as it found it, whatever the store holds. *)
Theorem getFilm_repeat_within_ttl request external_id w body w1 :
  FilmDetailView_get request external_id w
  = (Ok (mkResponse body HTTP_200_OK), w1) →
  ∃ expiry,
    cache w1 !! film_cache_key external_id = Some (body, expiry) ∧
    now w1 < expiry ∧
    (cached (film_cache_key external_id) w = None →
     expiry = now w + CACHE_TTL) ∧
    ∀ request2 w2,
      cache w2 !! film_cache_key external_id
      = cache w1 !! film_cache_key external_id →
      now w2 < expiry →
      FilmDetailView_get request2 external_id w2
      = (Ok (mkResponse body HTTP_200_OK), w2).
Proof.
  intros Hrun.
  destruct (FilmDetailView_get_outcome request external_id w)
    as (resp & w' & E & O).
  rewrite E in Hrun.
  assert (resp = mkResponse body HTTP_200_OK ∧ w' = w1) as [-> ->]
    by (by simplify_eq).
  assert (∃ expiry,
            cache w1 !! film_cache_key external_id = Some (body, expiry) ∧
            now w1 < expiry ∧
            (cached (film_cache_key external_id) w = None →
             expiry = now w + CACHE_TTL))
    as (expiry & Hl & Hlt & Hmiss).
  { inversion O as [v Hv| | film v w0 Hc _ _ _ _ Hn Hca _|]; subst.
    - pose proof Hv as Hv'. unfold cached in Hv'.
      destruct (cache w1 !! film_cache_key external_id) as [[v' e]|]; [|done].
      destruct (Z.ltb_spec (now w1) e); [|done]. simplify_eq.
      exists e. repeat split; try done. intros Hnone. congruence.
    - exists (now w + CACHE_TTL). rewrite Hca, lookup_insert_eq, Hn.
      unfold CACHE_TTL. repeat split; try done. lia. }
  exists expiry. repeat split; try done.
  intros request2 w2 Hsame Hnow. apply FilmDetailView_get_hit.
  unfold cached. rewrite Hsame, Hl.
  by destruct (Z.ltb_spec (now w2) expiry); [|lia].
Qed.

(** X7. The detail entry outlives a comment: after [getFilm] has cached the
    view of a catalog row, a successful [createComment] leaves that entry
    in place, so [getFilm] keeps returning the view with the old comment
    count until the entry expires, also when the comment went to the local
    film that the row's title resolves to and the store's count for the
    title is one more. *)
Theorem getFilm_stale_after_comment request external_id w film :
  cached (film_cache_key external_id) w = None → store_up w →
  with_film_id (pretty external_id) (film_caches (db w)) = [film] →
  ∃ w1,
    FilmDetailView_get request external_id w
    = (Ok (mkResponse (FilmData (view_of (db w) film)) HTTP_200_OK), w1) ∧
    ∀ post_request resp w2,
      CommentCreateView_post post_request w1 = (Ok resp, w2) →
      status resp = HTTP_201_CREATED →
      (∀ request3 w3,
         cache w3 !! film_cache_key external_id
         = cache w2 !! film_cache_key external_id →
         now w3 < now w + CACHE_TTL →
         FilmDetailView_get request3 external_id w3
         = (Ok (mkResponse (FilmData (view_of (db w) film)) HTTP_200_OK), w3)) ∧
      (∀ f, first_film (FilmCache.title film) (db w) = Some f →
            Py.int (data_get post_request "film") = inr (Film.id f) →
            comment_total (db w2) (FilmCache.title film)
            = fv_comment_count (view_of (db w) film) + 1).
Proof.
  intros Hc Hup Hrows.
  destruct (FilmDetailView_get_found request external_id w film Hc Hup Hrows)
    as (w1 & E & Hd & Hn & Hca).
  exists w1. split; [done|]. intros post_request resp w2 Hpost Hst.
  destruct (CommentCreateView_post_outcome post_request w1)
    as (resp' & w' & E' & O).
  rewrite E' in Hpost. simplify_eq.
  destruct (post_outcome_created _ _ _ _ O Hst)
    as (film' & (_ & Hint & _ & _) & _ & _ & _ & _ & ->).
  split.
  - intros request3 w3 Hsame Hnow. apply FilmDetailView_get_hit.
    unfold cached. rewrite Hsame. unfold with_comment. simpl.
    rewrite lookup_delete_ne
      by (intros Heq; symmetry in Heq; by apply film_key_not_list in Heq).
    rewrite Hca, lookup_insert_eq.
    by destruct (Z.ltb_spec (now w3) (now w + CACHE_TTL)); [|lia].
  - intros f Hfirst Hf. unfold with_comment. simpl.
    rewrite comment_total_with_comment, Hd, Hfirst. simpl.
    rewrite decide_True by congruence. done.
Qed.

(** X8. The two film views agree: over a store that answers and a cold
    cache, the view that [getFilm] returns for a catalog row is one of the
    views that [listFilms] returns. *)
Theorem getFilm_agrees_with_listFilms request external_id w film :
  cached FILMS_CACHE_KEY w = None →
  cached (film_cache_key external_id) w = None → store_up w →
  with_film_id (pretty external_id) (film_caches (db w)) = [film] →
  ∃ v l w1 w2,
    FilmDetailView_get request external_id w
    = (Ok (mkResponse (FilmData v) HTTP_200_OK), w1) ∧
    FilmsListView_get request w
    = (Ok (mkResponse (FilmListData l) HTTP_200_OK), w2) ∧
    v ∈ l.
Proof.
  intros Hcl Hcd Hup Hrows.
  destruct (FilmDetailView_get_found request external_id w film Hcd Hup Hrows)
    as (w1 & E1 & _).
  destruct (FilmsListView_get_miss request w Hcl (store_up_answers _ Hup))
    as (l & w2 & E2 & _ & _ & _ & _ & _ & Hl).
  destruct (Hl Hup) as [Hlist _]. rewrite Hlist in E2.
  exists (view_of (db w) film), (films_list_of (db w)), w1, w2.
  split; [done|]. split; [done|].
  unfold films_list_of. apply list_elem_of_fmap_2.
  rewrite order_by_Permutation.
  assert (film ∈ with_film_id (pretty external_id) (film_caches (db w))) as Hin
    by (rewrite Hrows; apply list_elem_of_here).
  by apply with_film_id_in in Hin as [_ ?].
Qed.

(** ** Comment creation, continued *)

(** X9. [createComment] answers 201, 400, 404 or 500, and every answer
    other than 201 leaves the store and the cache as they were: nothing is
    stored and the list key is kept, also when the store fails while the
    comment is inserted. *)
Theorem createComment_stores_only_on_201 request w :
  ∃ resp w', CommentCreateView_post request w = (Ok resp, w') ∧
    (status resp = HTTP_201_CREATED ∨ status resp = HTTP_400_BAD_REQUEST ∨
     status resp = HTTP_404_NOT_FOUND ∨
     status resp = HTTP_500_INTERNAL_SERVER_ERROR) ∧
    (status resp ≠ HTTP_201_CREATED →
     db w' = db w ∧ cache w' = cache w ∧ now w' = now w).
Proof.
  destruct (CommentCreateView_post_outcome request w) as (resp & w' & E & O).
  exists resp, w'. split; [done|]. split.
  - destruct O; simpl; auto.
  - intros Hst.
    destruct (post_outcome_cache _ _ _ _ O) as [Hn [(_ & Hd & Hc)|[? _]]]; done.
Qed.

(** X10. The title join hides comments: when the film that a created
    comment went to is not the film that any catalog row's title resolves
    to (another local film with that title has a lower id, or no catalog
    row has its title), the film list computed from the store is the same
    as before the comment. *)
Theorem comment_on_unresolved_film_not_listed request w resp w1 :
  CommentCreateView_post request w = (Ok resp, w1) →
  status resp = HTTP_201_CREATED →
  (∀ row g, row ∈ film_caches (db w) →
            first_film (FilmCache.title row) (db w) = Some g →
            Py.int (data_get request "film") ≠ inr (Film.id g)) →
  films_list_of (db w1) = films_list_of (db w).
Proof.
  intros Hrun Hst Hnot.
  destruct (CommentCreateView_post_outcome request w) as (resp' & w' & E & O).
  rewrite E in Hrun. simplify_eq.
  destruct (post_outcome_created _ _ _ _ O Hst)
    as (film & (_ & Hint & _ & _) & _ & _ & _ & _ & ->).
  unfold films_list_of, with_comment. simpl.
  apply Forall_fmap_ext_1, Forall_forall. intros row Hrow.
  rewrite order_by_Permutation in Hrow.
  unfold view_of. f_equal.
  rewrite comment_total_with_comment. simpl.
  destruct (first_film (FilmCache.title row) (db w)) as [g|] eqn:Hg; [|lia].
  destruct (decide (Film.id g = Film.id film)) as [Heq|]; [|lia].
  destruct (Hnot row g Hrow Hg). by rewrite Heq.
Qed.

(** X11. The film field is checked before the comment field is read: while
    the film field does not resolve to a film (it is missing, [int] cannot
    read it, the store fails or holds no such film), two requests with the
    same film field, from callers of the same kind, get the same answer
    and leave the same world, whatever their comment fields hold. *)
Theorem createComment_checks_film_first request request' w :
  data_get request "film" = data_get request' "film" →
  is_staff request = is_staff request' →
  (∀ film, ¬ film_resolves request w film) →
  CommentCreateView_post request w = CommentCreateView_post request' w.
Proof.
  intros Hfilm Hstaff Hno. unfold CommentCreateView_post.
  rewrite !try_except_run, <- Hfilm.
  assert (∀ e, error_detail request e = error_detail request' e) as Hdetail
    by (intros e; unfold error_detail; by rewrite Hstaff).
  destruct (Py.truthy (data_get request "film")) eqn:Htr; simpl; [|done].
  destruct (Py.int (data_get request "film")) as [e|film_id] eqn:Hint.
  { destruct e; simpl; try done. by rewrite Hdetail. }
  rewrite !bind_run. unfold try_except_kind, Film_get.
  rewrite !try_except_run, !bind_run.
  destruct (fails_next w) eqn:Hf.
  { destruct (execute_fails (GetFilm film_id)
      (λ s, (get_one "Film" (filter (λ f, Film.id f = film_id) (films s)), s))
      w Hf) as [msg ->].
    simpl. by rewrite Hdetail. }
  rewrite execute_answers by done.
  destruct (filter (λ f, Film.id f = film_id) (films (db w)))
    as [|film [|film' rows]] eqn:Hrows; simpl; try done.
  - exfalso. apply (Hno film).
    assert (Film.id film = film_id) as Hid.
    { assert (film ∈ filter (λ f, Film.id f = film_id) (films (db w))) as Hin
        by (rewrite Hrows; apply list_elem_of_here).
      by apply list_elem_of_filter in Hin as [? _]. }
    subst film_id. done.
  - by rewrite Hdetail.
Qed.

(** ** The sync command and the rest of the service *)

Lemma update_or_create_tables film_id title release_date w r w' :
  FilmCache_update_or_create film_id title release_date w = (r, w') →
  films (db w') = films (db w) ∧ comments (db w') = comments (db w).
Proof.
  intros H. unfold FilmCache_update_or_create in H. rewrite bind_run in H.
  destruct (execute (GetFilmCache film_id) _ w) as [[found|e] w1] eqn:E1;
    pose proof (execute_reads _ _ _ _ _ E1) as Hd1.
  2:{ simplify_eq. by rewrite Hd1. }
  rewrite bind_run in H. unfold timezone_now, execute in H.
  destruct (faults w1) as [|[msg|] rest];
    destruct title, release_date, found; simplify_eq; simpl; by rewrite Hd1.
Qed.

Lemma sync_loop_tables films_data : ∀ k u c out w r w',
  sync_loop films_data k u c out w = (r, w') →
  films (db w') = films (db w) ∧ comments (db w') = comments (db w).
Proof.
  induction films_data as [|film_data rest IH]; intros k u c out w r w' H.
  - simpl in H. by mred.
  - simpl in H. rewrite bind_run in H.
    destruct (FilmCache_update_or_create _ _ _ w) as [[[row created]|e] w1] eqn:E.
    + apply update_or_create_tables in E as [Hf Hc].
      apply IH in H as [Hf' Hc']. split; congruence.
    + apply update_or_create_tables in E as [Hf Hc]. by simplify_eq.
Qed.

(** X12. Whatever it is given and however it ends, the sync command writes
    the catalog table and the [films_list] key only: the local films, the
    comments, hence the comment count of every title, and every other cache
    key are as before. *)
Theorem sync_touches_catalog_only films_data w :
  let w' := (Command_handle films_data w).2 in
  films (db w') = films (db w) ∧ comments (db w') = comments (db w) ∧
  (∀ title, comment_total (db w') title = comment_total (db w) title) ∧
  (∀ key, key ≠ "films_list" → cache w' !! key = cache w !! key).
Proof.
  assert (films (db (Command_handle films_data w).2) = films (db w) ∧
          comments (db (Command_handle films_data w).2) = comments (db w) ∧
          (cache (Command_handle films_data w).2 = cache w ∨
           cache (Command_handle films_data w).2 = delete "films_list" (cache w)))
    as (Hf & Hc & Hca).
  { unfold Command_handle. destruct films_data as [message|films_data].
    - rewrite ret_run. simpl. auto.
    - rewrite bind_run.
      destruct (sync_loop films_data 0 0 0 _ w) as [[[[[k u] c] out]|e] w1] eqn:E;
        pose proof (sync_loop_tables _ _ _ _ _ _ _ _ E) as [Hf Hc];
        pose proof (sync_loop_frame _ _ _ _ _ _ _ _ E) as [Hca _].
      + rewrite bind_run. unfold cache_delete. simpl. rewrite Hca. auto.
      + simpl. auto. }
  simpl. repeat split; try done.
  - intros title. unfold comment_total, first_film. by rewrite Hf, Hc.
  - intros key Hk. destruct Hca as [->| ->]; [done|].
    by apply lookup_delete_ne.
Qed.

(** What a run of the command over complete records and a store that
    answers leaves behind. *)
Lemma Command_handle_run films_data w :
  store_up w → catalog_ok (db w) → Forall complete films_data →
  ∃ out w' created updated,
    Command_handle (inr films_data) w = (Ok out, w') ∧
    last out = Some (newline +:+ "Sync complete! Total: "
                     +:+ pretty (Z.of_nat (length films_data))
                     +:+ ", Created: " +:+ pretty created
                     +:+ ", Updated: " +:+ pretty updated) ∧
    created + updated = Z.of_nat (length films_data) ∧
    0 ≤ created ∧ 0 ≤ updated ∧
    cache w' = delete "films_list" (cache w) ∧ now w' = now w ∧
    store_up w' ∧ catalog_ok (db w') ∧
    (∀ i film_data, films_data !! i = Some film_data →
       ∃ row,
         with_film_id (pretty (0 + 1 + Z.of_nat i)) (film_caches (db w')) = [row] ∧
         Some (FilmCache.title row) = rf_title film_data ∧
         Some (FilmCache.release_date row) = rf_release_date film_data ∧
         FilmCache.last_synced_at row = now w).
Proof.
  intros Hup Hok Hall. unfold Command_handle. rewrite bind_run.
  destruct (sync_loop_run films_data 0 0 0 ["Starting film sync..."] w
              Hup Hok Hall)
    as (u & c & out & w1 & -> & Hsum & Hu & Hc & Hup1 & Hok1 & Hca & Hn & Hrows
        & _).
  rewrite bind_run. unfold cache_delete. simpl. rewrite ret_run.
  eexists _, _, c, u. split; [done|]. simpl.
  split; [by rewrite last_app|]. split; [lia|]. split; [lia|]. split; [lia|].
  split; [by rewrite Hca|]. split; [done|]. split; [done|]. split; [done|].
  exact Hrows.
Qed.

(** X13. A sync takes effect on the next list: after the command has synced
    complete records, the next [listFilms] over that store, when the store
    answers, sends the listing query and returns the list computed from the
    synced catalog, in which every synced record has a view with its title
    and release date. *)
Theorem sync_then_listFilms films_data w :
  store_up w → catalog_ok (db w) → Forall complete films_data →
  ∃ out w',
    Command_handle (inr films_data) w = (Ok out, w') ∧
    ∀ request w2,
      db w2 = db w' →
      cache w2 !! FILMS_CACHE_KEY = cache w' !! FILMS_CACHE_KEY →
      store_up w2 →
      (∃ w3 qs,
         FilmsListView_get request w2
         = (Ok (mkResponse (FilmListData (films_list_of (db w'))) HTTP_200_OK),
            w3) ∧
         queries w3 = (queries w2 ++ SelectFilmCaches :: qs)%list) ∧
      ∀ i film_data, films_data !! i = Some film_data →
        ∃ v, v ∈ films_list_of (db w') ∧
             Some (fv_title v) = rf_title film_data ∧
             Some (fv_release_date v) = rf_release_date film_data.
Proof.
  intros Hup Hok Hall.
  destruct (Command_handle_run films_data w Hup Hok Hall)
    as (out & w' & created & updated & E & _ & _ & _ & _ & Hca & _ & _ & _
        & Hrows).
  exists out, w'. split; [done|]. intros request w2 Hd Hsame Hup2. split.
  - assert (cached FILMS_CACHE_KEY w2 = None) as Hmiss.
    { unfold cached. rewrite Hsame, Hca. unfold FILMS_CACHE_KEY.
      by rewrite lookup_delete_eq. }
    destruct (FilmsListView_get_miss request w2 Hmiss (store_up_answers _ Hup2))
      as (l & w3 & Erun & _ & _ & _ & _ & (qs & Hq) & Hl).
    destruct (Hl Hup2) as [Hlist _]. exists w3, qs.
    by rewrite Erun, Hlist, Hd.
  - intros i film_data Hlook.
    destruct (Hrows i film_data Hlook) as (row & Hrow & Ht & Hr & _).
    exists (view_of (db w') row). split; [|done].
    unfold films_list_of. apply list_elem_of_fmap_2.
    rewrite order_by_Permutation.
    assert (row ∈ with_film_id (pretty (0 + 1 + Z.of_nat i))
                    (film_caches (db w'))) as Hin
      by (rewrite Hrow; apply list_elem_of_here).
    by apply with_film_id_in in Hin as [_ ?].
Qed.

(** An upsert under a film id that one row carries is an update: the row
    keeps its primary key and takes the title, the date and the time. *)
Lemma update_or_create_existing film_id title release_date w old :
  store_up w → catalog_ok (db w) →
  with_film_id film_id (film_caches (db w)) = [old] →
  ∃ w',
    FilmCache_update_or_create film_id (Some title) (Some release_date) w
    = (Ok (FilmCache.mk (FilmCache.id old) film_id title release_date (now w),
           false), w') ∧
    film_caches (db w')
    = replace_row
        (FilmCache.mk (FilmCache.id old) film_id title release_date (now w))
        (film_caches (db w)) ∧
    (∀ other, other ≠ film_id →
       with_film_id other (film_caches (db w'))
       = with_film_id other (film_caches (db w))) ∧
    catalog_ok (db w') ∧ store_up w' ∧ cache w' = cache w ∧ now w' = now w.
Proof.
  intros Hup Hok Hold.
  destruct (update_or_create_run film_id title release_date w Hup Hok)
    as (row & created & w' & E & _ & _ & _ & _ & _ & Hother & Hok' & Hup'
        & Hca & Hn).
  assert (FilmCache_update_or_create film_id (Some title) (Some release_date) w
          = (Ok (FilmCache.mk (FilmCache.id old) film_id title release_date
                   (now w), false),
             mkWorld
               (mkStore (films (db w))
                  (replace_row
                     (FilmCache.mk (FilmCache.id old) film_id title
                        release_date (now w))
                     (film_caches (db w)))
                  (comments (db w)) (film_cache_seq (db w))
                  (comments_seq (db w)))
               (cache w) (now w) []
               ((queries w ++ [GetFilmCache film_id])
                ++ [SaveFilmCache film_id]))) as E2.
  { unfold store_up in Hup. unfold FilmCache_update_or_create.
    rewrite bind_run. unfold execute at 1. rewrite Hup, Hold. simpl.
    unfold execute. simpl. done. }
  rewrite E2 in E. simplify_eq. eexists. split; [done|]. simpl.
  repeat split; try done; by destruct Hok' as (? & ? & ?).
Qed.

(** A second pass of the loop over records that the catalog already holds
    under their film ids, with their titles and dates: every record is
    counted as updated, and the rows keep all but the time of their
    sync. *)
Lemma sync_loop_again films_data : ∀ k u c out w,
  store_up w → catalog_ok (db w) →
  (∀ i film_data, films_data !! i = Some film_data →
     ∃ row,
       with_film_id (pretty (k + 1 + Z.of_nat i)) (film_caches (db w)) = [row] ∧
       Some (FilmCache.title row) = rf_title film_data ∧
       Some (FilmCache.release_date row) = rf_release_date film_data) →
  ∃ out' w',
    sync_loop films_data k u c out w
    = (Ok (k + Z.of_nat (length films_data),
           u + Z.of_nat (length films_data), c, out'), w') ∧
    row_key <$> film_caches (db w') = row_key <$> film_caches (db w) ∧
    cache w' = cache w.
Proof.
  induction films_data as [|film_data rest IH]; intros k u c out w Hup Hok Hrows.
  - exists out, w. simpl. by rewrite ret_run, !Z.add_0_r.
  - destruct (Hrows 0%nat film_data eq_refl) as (old & Hold & Ht & Hd).
    rewrite Z.add_0_r in Hold.
    simpl sync_loop. rewrite bind_run, <- Ht, <- Hd.
    destruct (update_or_create_existing (pretty (k + 1)) (FilmCache.title old)
                (FilmCache.release_date old) w old Hup Hok Hold)
      as (w1 & -> & Hrep & Hother & Hok1 & Hup1 & Hca1 & _).
    assert (old ∈ with_film_id (pretty (k + 1)) (film_caches (db w))) as Hin
      by (rewrite Hold; apply list_elem_of_here).
    apply with_film_id_in in Hin as [Hfid Hin].
    assert (row_key <$> film_caches (db w1) = row_key <$> film_caches (db w))
      as Hkeys.
    { rewrite Hrep. apply replace_row_fmap. simpl. intros r Hr Hid.
      destruct Hok as (_ & Hpk & _).
      assert (r = old) as -> by (by eapply (NoDup_fmap_eq FilmCache.id)).
      unfold row_key. simpl. by rewrite Hfid. }
    destruct (IH (k + 1) (u + 1) c
                (out ++ ["  " +:+ "Updated" +:+ ": "
                         +:+ FilmCache.title old])%list w1 Hup1 Hok1)
      as (out' & w' & E & Hkeys' & Hca').
    { intros i fd Hlook.
      destruct (Hrows (S i) fd Hlook) as (row & Hrow & Hrest).
      exists row. split; [|done]. rewrite Hother.
      - by replace (k + 1 + 1 + Z.of_nat i) with (k + 1 + Z.of_nat (S i)) by lia.
      - intros Heq. apply (inj pretty) in Heq. lia. }
    exists out', w'.
    replace (k + Z.of_nat (length (film_data :: rest)))
      with (k + 1 + Z.of_nat (length rest)) by (simpl; lia).
    replace (u + Z.of_nat (length (film_data :: rest)))
      with (u + 1 + Z.of_nat (length rest)) by (simpl; lia).
    split; [exact E|]. split; congruence.
Qed.

(** X14. The sync is idempotent on the catalog: a second run with the same
    records, over the store that the first run left, creates nothing,
    reports every record as updated, and leaves every catalog row with its
    primary key, external id, title and release date. *)
Theorem sync_twice_updates_only films_data w :
  store_up w → catalog_ok (db w) → Forall complete films_data →
  ∃ out1 w1,
    Command_handle (inr films_data) w = (Ok out1, w1) ∧
    ∀ w2, db w2 = db w1 → store_up w2 →
      ∃ out2 w3,
        Command_handle (inr films_data) w2 = (Ok out2, w3) ∧
        last out2 = Some (newline +:+ "Sync complete! Total: "
                          +:+ pretty (Z.of_nat (length films_data))
                          +:+ ", Created: " +:+ pretty 0
                          +:+ ", Updated: "
                          +:+ pretty (Z.of_nat (length films_data))) ∧
        row_key <$> film_caches (db w3) = row_key <$> film_caches (db w1).
Proof.
  intros Hup Hok Hall.
  destruct (Command_handle_run films_data w Hup Hok Hall)
    as (out1 & w1 & created & updated & E & _ & _ & _ & _ & _ & _ & _ & Hok1
        & Hrows).
  exists out1, w1. split; [done|]. intros w2 Hd Hup2.
  destruct (sync_loop_again films_data 0 0 0 ["Starting film sync..."] w2 Hup2)
    as (out' & w3 & Eloop & Hkeys & _).
  { by rewrite Hd. }
  { intros i fd Hlook. destruct (Hrows i fd Hlook) as (row & Hrow & Ht & Hr & _).
    exists row. by rewrite Hd. }
  unfold Command_handle. rewrite bind_run, Eloop, bind_run.
  unfold cache_delete. simpl. rewrite ret_run.
  eexists _, _. split; [done|]. simpl.
  split; [by rewrite last_app|]. by rewrite Hkeys, Hd.
Qed.

Lemma sync_loop_app pre rest : ∀ k u c out w,
  sync_loop (pre ++ rest) k u c out w =
  match sync_loop pre k u c out w with
  | (Ok (k', u', c', out'), w') => sync_loop rest k' u' c' out' w'
  | (Raise e, w') => (Raise e, w')
  end.
Proof.
  induction pre as [|film_data pre IH]; intros k u c out w; [done|].
  simpl. rewrite !bind_run.
  destruct (FilmCache_update_or_create _ _ _ w) as [[[row created]|e] w1];
    [|done].
  apply IH.
Qed.

(** An upsert of a record without a title or without a date asks for the
    row and then fails on the write. *)
Lemma update_or_create_incomplete film_id title release_date w :
  store_up w → catalog_ok (db w) →
  title = None ∨ release_date = None →
  ∃ e w',
    FilmCache_update_or_create film_id title release_date w = (Raise e, w') ∧
    exn_kind e = IntegrityError ∧ db w' = db w ∧ cache w' = cache w.
Proof.
  intros Hup (Hu & _) Hnone. unfold store_up in Hup.
  unfold FilmCache_update_or_create. rewrite bind_run.
  unfold execute at 1. rewrite Hup.
  destruct (with_film_id_at_most_one film_id _ Hu) as [E|[old E]];
    rewrite E; simpl; unfold execute; simpl;
    destruct title as [t|], release_date as [d|]; simpl;
    try (by destruct Hnone); eexists _, _; done.
Qed.

(** X15. The list key is deleted only when the loop has finished: when a
    fetched record lacks its title or its date, the command raises an
    integrity error at that record, after it has upserted the records
    before it, and leaves the cache as it was; the rows of the other film
    ids are as before. *)
Theorem sync_stops_at_incomplete_record pre bad rest w :
  store_up w → catalog_ok (db w) → Forall complete pre →
  rf_title bad = None ∨ rf_release_date bad = None →
  ∃ e w',
    Command_handle (inr (pre ++ bad :: rest)%list) w = (Raise e, w') ∧
    exn_kind e = IntegrityError ∧
    cache w' = cache w ∧
    (∀ i film_data, pre !! i = Some film_data →
       ∃ row,
         with_film_id (pretty (Z.of_nat i + 1)) (film_caches (db w')) = [row] ∧
         Some (FilmCache.title row) = rf_title film_data ∧
         Some (FilmCache.release_date row) = rf_release_date film_data) ∧
    (∀ other,
       (∀ i, (i < length pre)%nat → other ≠ pretty (Z.of_nat i + 1)) →
       with_film_id other (film_caches (db w'))
       = with_film_id other (film_caches (db w))).
Proof.
  intros Hup Hok Hall Hbad. unfold Command_handle.
  rewrite bind_run, sync_loop_app.
  destruct (sync_loop_run pre 0 0 0 ["Starting film sync..."] w Hup Hok Hall)
    as (u & c & out & w1 & -> & _ & _ & _ & Hup1 & Hok1 & Hca & _ & Hrows
        & Hframe).
  simpl sync_loop. rewrite bind_run.
  destruct (update_or_create_incomplete
              (pretty (0 + Z.of_nat (length pre) + 1)) (rf_title bad)
              (rf_release_date bad) w1 Hup1 Hok1 Hbad)
    as (e & w' & -> & Hkind & Hd & Hca').
  exists e, w'. split; [done|]. split; [done|]. split; [congruence|].
  rewrite Hd. split.
  - intros i fd Hlook. destruct (Hrows i fd Hlook) as (row & Hrow & Ht & Hr & _).
    exists row. by replace (Z.of_nat i + 1) with (0 + 1 + Z.of_nat i) by lia.
  - intros other Hne. apply Hframe. intros i Hi.
    replace (0 + 1 + Z.of_nat i) with (Z.of_nat i + 1) by lia. by apply Hne.
Qed.

(** ** The comments of a film *)

Lemma execute_unnamed_reads {A} (g : Store → result A) w r w' :
  execute_unnamed (λ s, (g s, s)) w = (r, w') →
  db w' = db w ∧ cache w' = cache w ∧ now w' = now w.
Proof.
  unfold execute_unnamed.
  destruct (faults w) as [|[msg|] rest]; intros; by simplify_eq.
Qed.

Lemma comment_row_frame c w r w' :
  comment_row c w = (r, w') →
  db w' = db w ∧ cache w' = cache w ∧ now w' = now w.
Proof.
  unfold comment_row, try_except_kind, Film_get.
  rewrite bind_run, try_except_run, bind_run. intros H.
  destruct (execute (GetFilm (Comments.film c)) _ w) as [[film|e] w1] eqn:E;
    pose proof (execute_frame _ _ _ _ _ E) as (Hc & Hn & _ & _);
    pose proof (execute_reads _ _ _ _ _ E) as Hd.
  - mred. done.
  - destruct (decide (exn_kind e = DoesNotExist)); mred; done.
Qed.

Lemma for_each_comment_row_frame cs : ∀ w r w',
  for_each comment_row cs w = (r, w') →
  db w' = db w ∧ cache w' = cache w ∧ now w' = now w.
Proof.
  induction cs as [|c cs IH]; intros w r w' H; simpl in H.
  - by mred.
  - rewrite bind_run in H.
    destruct (comment_row c w) as [[row|e] w1] eqn:E;
      apply comment_row_frame in E as (Hd & Hc & Hn).
    + rewrite bind_run in H.
      destruct (for_each comment_row cs w1) as [[rows|e] w2] eqn:E2;
        apply IH in E2 as (Hd2 & Hc2 & Hn2); mred;
        repeat split; congruence.
    + by simplify_eq.
Qed.

(** X16. [listComments] never raises and only reads: however it ends, the
    store, the cache and the clock are as before. *)
Theorem listComments_reads_only request film_id w :
  ∃ resp w',
    CommentsListView_get request film_id w = (Ok resp, w') ∧
    db w' = db w ∧ cache w' = cache w ∧ now w' = now w.
Proof.
  unfold CommentsListView_get. rewrite try_except_run.
  match goal with
  | |- context [match ?m w with _ => _ end] =>
      destruct (m w) as [[resp|e] w1] eqn:Hbody
  end.
  2:{ rewrite ret_run. eexists _, _. split; [done|].
      revert Hbody. rewrite bind_run. unfold try_except_kind, Film_get.
      rewrite try_except_run, bind_run. intros Hbody.
      destruct (execute (GetFilm film_id) _ w) as [[film|e'] w2] eqn:E;
        pose proof (execute_frame _ _ _ _ _ E) as (Hc & Hn & _ & _);
        pose proof (execute_reads _ _ _ _ _ E) as Hd.
      - simpl in Hbody. rewrite bind_run in Hbody.
        unfold Comments_filter_film_order_by_created_at in Hbody.
        destruct (execute_unnamed _ w2) as [[cs|e''] w3] eqn:E3;
          apply execute_unnamed_reads in E3 as (Hd3 & Hc3 & Hn3).
        + rewrite bind_run in Hbody.
          destruct (for_each comment_row cs w3) as [[rows|e3] w4] eqn:E4;
            apply for_each_comment_row_frame in E4 as (Hd4 & Hc4 & Hn4);
            mred; repeat split; congruence.
        + simplify_eq. repeat split; congruence.
      - destruct (decide (exn_kind e' = DoesNotExist)); mred; done. }
  eexists _, _. split; [done|].
  revert Hbody. rewrite bind_run. unfold try_except_kind, Film_get.
  rewrite try_except_run, bind_run. intros Hbody.
  destruct (execute (GetFilm film_id) _ w) as [[film|e'] w2] eqn:E;
    pose proof (execute_frame _ _ _ _ _ E) as (Hc & Hn & _ & _);
    pose proof (execute_reads _ _ _ _ _ E) as Hd.
  - simpl in Hbody. rewrite bind_run in Hbody.
    unfold Comments_filter_film_order_by_created_at in Hbody.
    destruct (execute_unnamed _ w2) as [[cs|e''] w3] eqn:E3;
      apply execute_unnamed_reads in E3 as (Hd3 & Hc3 & Hn3).
    + rewrite bind_run in Hbody.
      destruct (for_each comment_row cs w3) as [[rows|e3] w4] eqn:E4;
        apply for_each_comment_row_frame in E4 as (Hd4 & Hc4 & Hn4);
        mred; repeat split; congruence.
    + simplify_eq.
  - destruct (decide (exn_kind e' = DoesNotExist)); mred; done.
Qed.

(** Over a store that answers, the film of a comment is fetched and its
    title is written into the row. *)
Lemma comment_row_run c film w :
  store_up w →
  filter (λ f, Film.id f = Comments.film c) (films (db w)) = [film] →
  ∃ w', comment_row c w = (Ok (row_of (Film.title film) c), w') ∧
        store_up w' ∧ db w' = db w ∧ cache w' = cache w ∧ now w' = now w.
Proof.
  intros Hup Hrows. unfold store_up in Hup.
  unfold comment_row, try_except_kind, Film_get.
  rewrite bind_run, try_except_run, bind_run.
  unfold execute. rewrite Hup, Hrows. simpl. eexists. split; [done|].
  by simpl.
Qed.

Lemma for_each_comment_row_run film cs : ∀ w,
  store_up w →
  filter (λ f, Film.id f = Film.id film) (films (db w)) = [film] →
  Forall (λ c, Comments.film c = Film.id film) cs →
  ∃ w', for_each comment_row cs w
        = (Ok (row_of (Film.title film) <$> cs), w') ∧
        db w' = db w ∧ cache w' = cache w ∧ now w' = now w.
Proof.
  induction cs as [|c cs IH]; intros w Hup Hrows Hall.
  - exists w. simpl. by rewrite ret_run.
  - apply Forall_cons in Hall as [Hc Hall]. simpl. rewrite bind_run.
    destruct (comment_row_run c film w Hup) as (w1 & -> & Hup1 & Hd & Hca & Hn).
    { by rewrite Hc. }
    rewrite bind_run.
    destruct (IH w1 Hup1) as (w2 & -> & Hd2 & Hca2 & Hn2); [by rewrite Hd|done|].
    rewrite ret_run. exists w2. repeat split; congruence.
Qed.

(** The comments of a film that the store holds once, over a store that
    answers. *)
Lemma CommentsListView_get_listed request film_id w film :
  store_up w →
  filter (λ f, Film.id f = film_id) (films (db w)) = [film] →
  ∃ w', CommentsListView_get request film_id w
        = (Ok (CommentsOk
                 (row_of (Film.title film)
                  <$> order_by by_created_at
                        (of_film film_id (comments (db w))))), w') ∧
        db w' = db w.
Proof.
  intros Hup Hrows.
  assert (Film.id film = film_id) as Hid.
  { assert (film ∈ filter (λ f, Film.id f = film_id) (films (db w))) as Hin
      by (rewrite Hrows; apply list_elem_of_here).
    by apply list_elem_of_filter in Hin as [? _]. }
  unfold store_up in Hup. unfold CommentsListView_get.
  rewrite try_except_run, bind_run. unfold try_except_kind, Film_get.
  rewrite try_except_run, bind_run. unfold execute. rewrite Hup, Hrows. simpl.
  rewrite bind_run. unfold Comments_filter_film_order_by_created_at.
  unfold execute_unnamed. simpl. rewrite bind_run.
  set (w1 := mkWorld _ _ _ _ _).
  destruct (for_each_comment_row_run film
              (order_by by_created_at (of_film (Film.id film) (comments (db w))))
              w1)
    as (w2 & -> & Hd & _).
  - done.
  - simpl. by rewrite Hid.
  - apply Forall_forall. intros c Hc. rewrite order_by_Permutation in Hc.
    unfold of_film in Hc. by apply list_elem_of_filter in Hc as [? _].
  - rewrite ret_run, Hid. eexists. split; [done|]. by rewrite Hd.
Qed.

#[local] Instance by_created_at_trans : Transitive by_created_at.
Proof. unfold by_created_at. intros a b c. lia. Qed.

#[local] Instance by_created_at_total : Total by_created_at.
Proof. unfold by_created_at. intros a b. lia. Qed.

(** X17. For a film id that no local film has, [listComments] answers 404
    when the store answers the lookup; for a local film without comments
    it answers 200 with the empty list. *)
Theorem listComments_unknown_or_empty request film_id w :
  store_up w →
  (filter (λ f, Film.id f = film_id) (films (db w)) = [] →
   ∃ w', CommentsListView_get request film_id w
         = (Ok (CommentsError
                  (not_found ("Film with ID " +:+ pretty film_id
                              +:+ " does not exist"))), w')) ∧
  (∀ film,
     filter (λ f, Film.id f = film_id) (films (db w)) = [film] →
     of_film film_id (comments (db w)) = [] →
     ∃ w', CommentsListView_get request film_id w = (Ok (CommentsOk []), w')).
Proof.
  intros Hup. split.
  - intros Hrows. unfold store_up in Hup. unfold CommentsListView_get.
    rewrite try_except_run, bind_run. unfold try_except_kind, Film_get.
    rewrite try_except_run, bind_run. unfold execute. rewrite Hup, Hrows.
    simpl. by eexists.
  - intros film Hrows Hnone.
    destruct (CommentsListView_get_listed request film_id w film Hup Hrows)
      as (w' & E & _).
    rewrite Hnone in E. by exists w'.
Qed.

(** X18. For a local film that the store holds, over a store that answers,
    [listComments] answers 200 with exactly the comments of that film, each
    once and with the film's title, in ascending order of creation time. *)
Theorem listComments_lists_the_comments_of_the_film request film_id w film :
  store_up w →
  filter (λ f, Film.id f = film_id) (films (db w)) = [film] →
  ∃ l w',
    CommentsListView_get request film_id w = (Ok (CommentsOk l), w') ∧
    l ≡ₚ row_of (Film.title film) <$> of_film film_id (comments (db w)) ∧
    sorted_by_created_at l.
Proof.
  intros Hup Hrows.
  destruct (CommentsListView_get_listed request film_id w film Hup Hrows)
    as (w' & E & _).
  eexists _, w'. split; [exact E|]. split.
  - by rewrite order_by_Permutation.
  - unfold sorted_by_created_at.
    apply (StronglySorted_fmap _ by_created_at); [done|].
    apply StronglySorted_order_by; apply _.
Qed.

(** X19. A created comment is listed: after [createComment] has answered
    201 for the film id [n], [listComments] for [n] over that store, when
    the store answers, answers 200 with a list that holds the row of the
    answer (same id, text, time and film title) and has one row more than
    the film had comments. *)
Theorem created_comment_is_listed request w resp w1 v film_id :
  CommentCreateView_post request w = (Ok resp, w1) →
  status resp = HTTP_201_CREATED →
  data resp = CommentData v →
  Py.int (data_get request "film") = inr film_id →
  ∀ request2 w2,
    db w2 = db w1 → store_up w2 →
    ∃ l w3,
      CommentsListView_get request2 film_id w2 = (Ok (CommentsOk l), w3) ∧
      row_of_view v ∈ l ∧
      length l = S (length (of_film film_id (comments (db w)))).
Proof.
  intros Hrun Hst Hdata Hint request2 w2 Hd Hup.
  destruct (CommentCreateView_post_outcome request w) as (resp' & w' & E & O).
  rewrite E in Hrun. simplify_eq.
  destruct (post_outcome_created _ _ _ _ O Hst)
    as (film & (_ & Hint' & _ & Hrows) & _ & _ & _ & Hresp & Hw).
  assert (film_id = Film.id film) as -> by congruence.
  rewrite Hresp in Hdata. simpl in Hdata. simplify_eq.
  destruct (CommentsListView_get_listed request2 (Film.id film) w2 film Hup)
    as (w3 & Elist & _).
  { rewrite Hd. by simpl. }
  rewrite Hd in Elist. simpl in Elist.
  eexists _, w3. split; [exact Elist|]. split.
  - apply (list_elem_of_fmap_2' _ _ (new_comment request w film)); [|done].
    rewrite order_by_Permutation, of_film_snoc. simpl.
    rewrite decide_True by done. set_solver.
  - rewrite length_fmap, order_by_Permutation, of_film_snoc, length_app.
    simpl. rewrite decide_True by done. simpl. lia.
Qed.

(** ** The per-film entries of the cache along a run *)

Lemma step_detail_entries_typed w w' :
  step w w' → detail_entries_typed w → detail_entries_typed w'.
Proof.
  intros Hstep Hinv film_id v expiry.
  assert (∀ l e,
            cache w' = <[FILMS_CACHE_KEY := (FilmListData l, e)]> (cache w) →
            cache w' !! film_cache_key film_id = Some (v, expiry) →
            ∃ view, v = FilmData view) as Hset.
  { intros l e ->. rewrite lookup_insert_ne.
    - apply Hinv.
    - intros Heq. symmetry in Heq. by apply film_key_not_list in Heq. }
  assert (cache w' = delete FILMS_CACHE_KEY (cache w) →
          cache w' !! film_cache_key film_id = Some (v, expiry) →
          ∃ view, v = FilmData view) as Hdel.
  { intros ->. rewrite lookup_delete_ne.
    - apply Hinv.
    - intros Heq. symmetry in Heq. by apply film_key_not_list in Heq. }
  destruct Hstep as [request w r w' H|request m w r w' H|request w r w' H
                    |run_main w r w' H|films_data w r w' H|w w' Hc _].
  - destruct (cached FILMS_CACHE_KEY w) as [c|] eqn:Hc.
    + rewrite (FilmsListView_get_hit _ _ _ Hc) in H. simplify_eq. apply Hinv.
    + destruct (fails_next w) eqn:Hf.
      * destruct (FilmsListView_get_down request w Hc Hf)
          as (detail & w2 & E & _ & Hca & _).
        rewrite E in H. simplify_eq. rewrite Hca. apply Hinv.
      * destruct (FilmsListView_get_miss request w Hc Hf)
          as (l & w2 & E & _ & _ & _ & Hca & _).
        rewrite E in H. simplify_eq. by eapply Hset.
  - destruct (FilmDetailView_get_outcome request m w) as (resp & w2 & E & O).
    rewrite E in H. simplify_eq.
    destruct O as [| ? ? _ _ _ _ Hc | ? view ? _ _ _ _ _ _ Hc _ | ? ? _ _ _ Hc];
      try (rewrite Hc); try apply Hinv.
    destruct (decide (film_cache_key m = film_cache_key film_id)) as [->|Hne].
    + rewrite lookup_insert_eq. intros [= <- <-]. by exists view.
    + rewrite lookup_insert_ne by done. apply Hinv.
  - destruct (CommentCreateView_post_outcome request w) as (resp & w2 & E & O).
    rewrite E in H. simplify_eq.
    destruct (post_outcome_cache _ _ _ _ O) as [_ [(_ & _ & Hc)|(_ & Hc)]].
    + rewrite Hc. apply Hinv.
    + by apply Hdel.
  - destruct (FilmConfig_ready_outcome run_main w)
      as (w2 & E & _ & _ & [[_ ->]|[(_ & _ & Hc & _)|(_ & _ & _ & _ & _ & l & _ & Hc & _)]]);
      rewrite E in H; simplify_eq.
    + apply Hinv.
    + rewrite Hc. apply Hinv.
    + by eapply Hset.
  - unfold Command_handle in H. destruct films_data as [message|films_data].
    + mred. apply Hinv.
    + rewrite bind_run in H.
      destruct (sync_loop films_data 0 0 0 _ w) as [[[[[k u] c] out]|e] w1] eqn:E;
        apply sync_loop_frame in E as [Hc _].
      * unfold cache_delete in H. rewrite bind_run in H. mred.
        apply Hdel. by rewrite Hc.
      * simplify_eq. rewrite Hc. apply Hinv.
  - rewrite Hc. apply Hinv.
Qed.

Lemma reachable_detail_entries_typed w :
  reachable w → detail_entries_typed w.
Proof.
  intros Hreach. induction Hreach as [w Hempty|w w' _ IH Hstep].
  - intros film_id v expiry. by rewrite Hempty, lookup_empty.
  - by eapply step_detail_entries_typed.
Qed.

(** X20. Along every run of the service from an empty cache, an answer 200
    of [getFilm] carries a film view, whether it was assembled from the
    store or served from the cache: no other handler writes under a
    per-film key. *)
Theorem getFilm_answers_a_film_view w request external_id resp w' :
  reachable w →
  FilmDetailView_get request external_id w = (Ok resp, w') →
  status resp = HTTP_200_OK →
  ∃ view, data resp = FilmData view.
Proof.
  intros Hreach Hrun Hst.
  pose proof (reachable_detail_entries_typed _ Hreach) as Hinv.
  destruct (FilmDetailView_get_outcome request external_id w)
    as (resp0 & w0 & E & O).
  rewrite E in Hrun. assert (resp = resp0) as -> by congruence. clear Hrun E.
  destruct O as [v Hv| | film view ? | ]; try done.
  - unfold cached in Hv.
    destruct (cache w !! film_cache_key external_id) as [[v' e]|] eqn:El;
      [|done].
    destruct (now w <? e); [|done]. simplify_eq. by eapply Hinv.
  - by exists view.
Qed.

(** ** The serializer's bound and the view's checks *)


End Handlers.

(** * The theorems at work on the small instance *)

Example int_reads :
  Py.int (Py.Str " 12 ") = inr 12 ∧ Py.int (Py.Str "-5") = inr (-5) ∧
  Py.int (Py.Str "1_000") = inr 1000 ∧ Py.int (Py.Str "007") = inr 7 ∧
  Py.int (Py.Bool true) = inr 1 ∧
  Py.int (Py.Float (Py.Finite (-7) (-1))) = inr (-3).
Proof. vm_compute. done. Qed.

Example int_rejects :
  Py.int (Py.Str "abc") = inl Py.ValueError ∧
  Py.int (Py.Str "1.5") = inl Py.ValueError ∧
  Py.int (Py.Str "1__0") = inl Py.ValueError ∧
  Py.int (Py.Str "- 5") = inl Py.ValueError ∧
  Py.int (Py.Str "") = inl Py.ValueError ∧
  Py.int (Py.Str (String (ascii_of_nat 31) "2")) = inl Py.ValueError ∧
  Py.int (Py.Str (String.concat "" (replicate 4301 "1")))
  = inl Py.ValueError ∧
  Py.int (Py.List [Py.Int 1]) = inl Py.TypeError ∧
  Py.int (Py.Float (Py.Inf false)) = inl Py.OverflowError.
Proof. vm_compute. done. Qed.

(** Rows with one release date come in the order of the table. *)
Example order_by_keeps_table_order :
  FilmCache.id <$>
    order_by by_release_date
      [FilmCache.mk 1 "1" "a" 10 0; FilmCache.mk 2 "2" "b" 10 0;
       FilmCache.mk 3 "3" "c" 5 0; FilmCache.mk 4 "4" "d" 10 0]
  = [3; 1; 2; 4].
Proof. vm_compute. reflexivity. Qed.

Example strip_trims :
  Py.strip "  Best one!  " = "Best one!" ∧ Py.strip "   " = "" ∧
  Py.strip "a b" = "a b".
Proof. vm_compute. done. Qed.

Example listFilms_on_demo :
  (FilmsListView_get demo_get demo_world).1
  = Ok (mkResponse
          (FilmListData
             [mkFilmView 2 "A New Hope" 721864 1;
              mkFilmView 3 "The Empire Strikes Back" 722952 0;
              mkFilmView 1 "The Phantom Menace" 729893 0])
          200).
Proof. vm_compute. reflexivity. Qed.

(** A failure while counting the comments of the first row is swallowed. *)
Example listFilms_on_failing_demo :
  (FilmsListView_get demo_get demo_world_failing).1
  = Ok (mkResponse
          (FilmListData
             [mkFilmView 2 "A New Hope" 721864 0;
              mkFilmView 3 "The Empire Strikes Back" 722952 0;
              mkFilmView 1 "The Phantom Menace" 729893 0])
          200).
Proof. vm_compute. reflexivity. Qed.

(** The scenario of the specification: one fetched record, an empty
    catalog. *)
Example sync_first_film :
  let w := mkWorld (mkStore [] [] [] 0 0) ∅ 100 [] [] in
  film_caches
    (db (Command_handle (inr [mkRemoteFilm (Some "A New Hope") (Some 721864)])
           w).2)
  = [FilmCache.mk 1 "1" "A New Hope" 721864 100].
Proof. vm_compute. reflexivity. Qed.

(** C1 at work: film 1, the first local film called "A New Hope", had one
    comment; after a second one the next list shows two. *)
Lemma createComment_invalidates_film_list_witness :
  let run :=
    CommentCreateView_post demo_repr
      (demo_request (Py.Int 1) (Py.Str "  Best one!  ")) demo_world in
  run.1 = Ok (mkResponse
                (CommentData (mkCommentView 2 "Best one!" 100 "A New Hope"))
                201) ∧
  cached FILMS_CACHE_KEY run.2 = None ∧
  number_of_comments 1 (comments (db run.2)) = 2 ∧
  ∃ w3 qs,
    FilmsListView_get demo_get run.2
    = (Ok (mkResponse
             (FilmListData
                [mkFilmView 2 "A New Hope" 721864 2;
                 mkFilmView 3 "The Empire Strikes Back" 722952 0;
                 mkFilmView 1 "The Phantom Menace" 729893 0])
             200), w3) ∧
    queries w3 = (queries run.2 ++ SelectFilmCaches :: qs)%list.
Proof.
  intros run.
  destruct (createComment_invalidates_film_list demo_repr
              (demo_request (Py.Int 1) (Py.Str "  Best one!  ")) demo_world
              (mkResponse
                 (CommentData (mkCommentView 2 "Best one!" 100 "A New Hope"))
                 201)
              run.2)
    as (film & Hin & _ & _ & _ & Hdata & _ & Hmiss & Hmore & Hnext).
  - vm_compute. reflexivity.
  - reflexivity.
  - assert (film = Film.mk 1 "A New Hope" 721864 0) as ->.
    { apply elem_of_cons in Hin as [->|Hin]; [reflexivity|].
      apply list_elem_of_singleton in Hin as ->. discriminate Hdata. }
    split; [vm_compute; reflexivity|]. split; [exact Hmiss|].
    split; [exact Hmore|].
    destruct (Hnext demo_get run.2 eq_refl eq_refl eq_refl)
      as (l & w3 & qs & rows & Hrun & Hq & -> & _).
    exists w3, qs. split; [exact Hrun|exact Hq].
Defined.

(** The claim as the specification words it does not hold of every film:
    of two local films called "A New Hope" the second gets its first
    comment, and the next list still shows no comment for "A New Hope",
    whose count is that of the first of the two. *)
Lemma createComment_on_second_film_not_reflected :
  (CommentCreateView_post demo_repr
     (demo_request (Py.Int 2) (Py.Str "Great!")) demo_world_twins).1
  = Ok (mkResponse
          (CommentData (mkCommentView 1 "Great!" 100 "A New Hope")) 201) ∧
  number_of_comments 2
    (comments
       (db (CommentCreateView_post demo_repr
              (demo_request (Py.Int 2) (Py.Str "Great!")) demo_world_twins).2))
  = 1 ∧
  (FilmsListView_get demo_get
     (CommentCreateView_post demo_repr
        (demo_request (Py.Int 2) (Py.Str "Great!")) demo_world_twins).2).1
  = Ok (mkResponse (FilmListData [mkFilmView 1 "A New Hope" 721864 0]) 200) ∧
  ¬ reflects_comments_of
      (db (CommentCreateView_post demo_repr
             (demo_request (Py.Int 2) (Py.Str "Great!")) demo_world_twins).2)
      (Film.mk 2 "A New Hope" 721864 0)
      [mkFilmView 1 "A New Hope" 721864 0].
Proof.
  split; [vm_compute; reflexivity|]. split; [vm_compute; reflexivity|].
  split; [vm_compute; reflexivity|].
  intros (v & Hv & _ & Hcount).
  apply list_elem_of_singleton in Hv as ->. vm_compute in Hcount.
  discriminate Hcount.
Qed.

(** C4 at work: the film field 1.5 on the small instance. *)
Lemma post_fractional_film_id_accepted_witness :
  ∃ w',
    CommentCreateView_post demo_repr
      (mkRequest (<["film" := Py.Float (Py.Finite 3 (-1))]>
                    (<["comment" := Py.Str "Great!"]> ∅)) false)
      demo_world
    = (Ok (mkResponse
             (CommentData (mkCommentView 2 "Great!" 100 "A New Hope")) 201),
       w') ∧
    comments (db w')
    = [Comments.mk 1 1 "Great!" 50; Comments.mk 2 1 "Great!" 100].
Proof.
  exact (post_fractional_film_id_accepted demo_repr ∅ false demo_world
           (Film.mk 1 "A New Hope" 721864 0) eq_refl eq_refl).
Defined.

(** C5 at work: the list served from the cache that a first call filled. *)
Lemma listFilms_sorted_witness :
  let w1 := (FilmsListView_get demo_get demo_world).2 in
  reachable demo_repr w1 ∧
  ∃ l, (FilmsListView_get demo_get w1).1
       = Ok (mkResponse (FilmListData l) 200) ∧
       sorted_by_release_date l.
Proof.
  intros w1.
  assert (reachable demo_repr w1) as Hreach.
  { apply (reachable_step demo_repr demo_world w1).
    - by apply reachable_init.
    - by apply (step_list demo_repr demo_get demo_world
                  (FilmsListView_get demo_get demo_world).1). }
  split; [exact Hreach|].
  destruct (listFilms_sorted demo_repr w1 demo_get
              (mkResponse
                 (FilmListData
                    [mkFilmView 2 "A New Hope" 721864 1;
                     mkFilmView 3 "The Empire Strikes Back" 722952 0;
                     mkFilmView 1 "The Phantom Menace" 729893 0])
                 200)
              w1 Hreach)
    as (l & Hl & Hsorted).
  - vm_compute. reflexivity.
  - reflexivity.
  - exists l. split; [|exact Hsorted].
    simpl in Hl. rewrite <- Hl. vm_compute. reflexivity.
Defined.

(** C6 at work: 599 seconds after a first call, with the store down. *)
Lemma listFilms_repeat_within_ttl_witness :
  let w1 := (FilmsListView_get demo_get demo_world).2 in
  let w2 := mkWorld (db w1) (cache w1) 699 [Some "connection lost"] (queries w1) in
  FilmsListView_get demo_get w2
  = ((FilmsListView_get demo_get demo_world).1, w2).
Proof.
  intros w1 w2.
  destruct (listFilms_repeat_within_ttl demo_get demo_world
              (FilmListData
                 [mkFilmView 2 "A New Hope" 721864 1;
                  mkFilmView 3 "The Empire Strikes Back" 722952 0;
                  mkFilmView 1 "The Phantom Menace" 729893 0])
              w1)
    as (expiry & _ & _ & Hexp & Hrepeat).
  - vm_compute. reflexivity.
  - rewrite (Hexp eq_refl) in Hrepeat.
    destruct (Hrepeat demo_get w2) as [Hrun _].
    + reflexivity.
    + vm_compute. reflexivity.
    + rewrite Hrun. vm_compute. reflexivity.
Defined.

(** C8 at work: no catalog row carries the external id 7. *)
Lemma getFilm_unknown_not_found_witness :
  ∃ resp w',
    FilmDetailView_get demo_get 7 demo_world = (Ok resp, w') ∧
    is_not_found resp ∧
    status resp ≠ HTTP_500_INTERNAL_SERVER_ERROR.
Proof.
  exact (getFilm_unknown_not_found demo_get 7 demo_world
           eq_refl eq_refl eq_refl).
Defined.

Lemma demo_catalog_ok : catalog_ok demo_store.
Proof.
  unfold catalog_ok, unique_film_ids. simpl. split; [|split].
  - apply (bool_decide_unpack _). vm_compute. reflexivity.
  - apply (bool_decide_unpack _). vm_compute. reflexivity.
  - repeat constructor; simpl; lia.
Defined.

Lemma demo_remote_complete : Forall complete demo_remote.
Proof. repeat constructor; simpl; eauto. Defined.

(** C9 at work: two records synced into the small instance. *)
Lemma sync_assigns_sequential_ids_witness :
  ∃ out w' created updated,
    Command_handle (inr demo_remote) demo_world = (Ok out, w') ∧
    last out = Some (newline +:+ "Sync complete! Total: "
                     +:+ pretty (Z.of_nat (length demo_remote))
                     +:+ ", Created: " +:+ pretty created
                     +:+ ", Updated: " +:+ pretty updated) ∧
    created + updated = 2 ∧
    cache w' = delete "films_list" (cache demo_world).
Proof.
  destruct (sync_assigns_sequential_ids demo_remote demo_world eq_refl
              demo_catalog_ok demo_remote_complete)
    as (out & w' & created & updated & Hrun & Hlast & Hsum & _ & _ & Hcache & _).
  exists out, w', created, updated. auto.
Defined.

(** C10 at work: the NotFound for the id 7 leaves the cache empty. *)
Lemma getFilm_not_found_not_cached_witness :
  let run := FilmDetailView_get demo_get 7 demo_world in
  cache run.2 = cache demo_world ∧
  queries run.2 = [GetFilmCache "7"] ∧
  ∃ qs, queries (FilmDetailView_get demo_get 7 run.2).2
        = (queries run.2 ++ GetFilmCache (pretty 7) :: qs)%list.
Proof.
  intros run.
  destruct (getFilm_not_found_not_cached demo_get 7 demo_world
              (not_found ("Film with ID " +:+ quote +:+ pretty 7 +:+ quote
                          +:+ " does not exist"))
              run.2)
    as (_ & _ & Hnf).
  - vm_compute. reflexivity.
  - destruct (Hnf eq_refl) as (Hc & Hq & Hagain).
    split; [exact Hc|]. split; [exact Hq|].
    apply Hagain; [reflexivity|]. vm_compute. discriminate.
Defined.

(** C2 at work: "A New Hope" has one local film, which has one comment.
    The count is 1 while the store answers and 0 when the store fails the
    counting query, and the list is served all the same. *)
Lemma comment_count_defaults_to_zero_witness :
  (∃ w', comment_count_for "A New Hope" demo_world = (Ok 1, w')) ∧
  (∃ w', comment_count_for "A New Hope" demo_world_failing = (Ok 0, w')) ∧
  ∃ l w', FilmsListView_get demo_get demo_world_failing
          = (Ok (mkResponse (FilmListData l) 200), w') ∧
          length l = 3%nat.
Proof.
  split; [|split].
  - destruct (proj1 comment_count_defaults_to_zero "A New Hope" demo_world)
      as (n & w' & Hrun & _ & _ & _ & Hup).
    exists w'. rewrite Hrun. f_equal. f_equal.
    destruct (Hup eq_refl) as [(film & (Hin & Ht & _) & ->)|[Hno _]].
    + apply elem_of_cons in Hin as [->|Hin]; [reflexivity|].
      apply list_elem_of_singleton in Hin as ->. discriminate Ht.
    + destruct (Hno (Film.mk 1 "A New Hope" 721864 0));
        [apply list_elem_of_here|reflexivity].
  - destruct (proj1 comment_count_defaults_to_zero "A New Hope"
                demo_world_failing)
      as (n & w' & Hrun & _ & _ & [[_ ->]|[Hret _]] & _).
    + by exists w'.
    + vm_compute in Hret. discriminate Hret.
  - destruct (proj2 comment_count_defaults_to_zero demo_get demo_world_failing
                eq_refl eq_refl)
      as (l & w' & rows & Hrun & Hperm & Hviews & _).
    exists l, w'. split; [exact Hrun|].
    by rewrite <- (Forall2_length _ _ _ Hviews), Hperm.
Defined.

(** C3 at work: the film id zero, as a number and as a text. *)
Lemma post_film_zero_taken_for_missing_witness :
  CommentCreateView_post demo_repr
    (mkRequest (<["film" := Py.Int 0]> {["comment" := Py.Str "Great!"]}) false)
    demo_world
  = (Ok (validation_error "film ID is required"), demo_world) ∧
  CommentCreateView_post demo_repr
    (mkRequest (<["film" := Py.Str "0"]> {["comment" := Py.Str "Great!"]}) false)
    demo_world
  = (Ok (not_found "Film with ID 0 does not exist"),
     after_query (GetFilm 0) demo_world).
Proof.
  destruct (post_film_zero_taken_for_missing demo_repr
              {["comment" := Py.Str "Great!"]} false demo_world)
    as (_ & Hzero & Htext).
  split; [exact Hzero|]. exact (Htext eq_refl eq_refl).
Defined.

(** C7 at work: a detail entry cached before a comment is created. *)
Lemma createComment_keeps_detail_entries_witness :
  let w := (FilmDetailView_get demo_get 2 demo_world).2 in
  ∃ resp w',
    CommentCreateView_post demo_repr
      (demo_request (Py.Int 1) (Py.Str "Great!")) w = (Ok resp, w') ∧
    cache w' !! film_cache_key 2 = cache w !! film_cache_key 2.
Proof.
  intros w.
  destruct (createComment_keeps_detail_entries demo_repr
              (demo_request (Py.Int 1) (Py.Str "Great!")) w 2)
    as (resp & w' & Hrun & Hkey & _).
  exists resp, w'. split; [exact Hrun|exact Hkey].
Defined.

(** * The further properties at work on the small instances *)

(** X2 at work: a warm-up, then a list call while the store is down. *)
Lemma ready_warms_film_list_witness :
  ∃ w',
    FilmConfig_ready true demo_world = (Ok (), w') ∧
    FilmsListView_get demo_get
      (mkWorld demo_store (cache w') 500 [Some "connection lost"] [])
    = (Ok (mkResponse (FilmListData (films_list_of demo_store)) 200),
       mkWorld demo_store (cache w') 500 [Some "connection lost"] []).
Proof.
  destruct (ready_warms_film_list demo_world eq_refl eq_refl)
    as (w' & E & _ & Hnext); [done|].
  exists w'. split; [exact E|].
  apply Hnext; [reflexivity|]. vm_compute. reflexivity.
Defined.

(** X3 at work: the instance whose catalog is empty. *)
Lemma empty_catalog_warm_up_and_list_witness :
  (∃ w', FilmConfig_ready true demo_world_no_catalog = (Ok (), w') ∧
         cache w' = ∅) ∧
  (∃ w', FilmsListView_get demo_get demo_world_no_catalog
         = (Ok (mkResponse (FilmListData []) 200), w') ∧
         cache w' = {[FILMS_CACHE_KEY := (FilmListData [], 700)]}).
Proof.
  exact (empty_catalog_warm_up_and_list demo_get demo_world_no_catalog
           eq_refl eq_refl eq_refl).
Defined.

(** X4 at work: the store is down and the caller is not staff. *)
Lemma listFilms_failure_not_cached_witness :
  ∃ w',
    FilmsListView_get demo_get demo_world_down
    = (Ok (mkResponse
             (ErrorData "An error occurred while fetching films"
                        "Internal server error") 500), w') ∧
    cache w' = ∅.
Proof.
  destruct (listFilms_failure_not_cached demo_get demo_world_down
              "connection lost" [] eq_refl eq_refl)
    as (w' & E & Hca & _).
  exists w'. split; [exact E|exact Hca].
Defined.

(** X5 at work: a comment sent while the store is down. *)
Lemma server_error_detail_for_staff_only_witness :
  let run :=
    CommentCreateView_post demo_repr
      (demo_request (Py.Int 1) (Py.Str "Great!")) demo_world_down in
  ∃ resp, run.1 = Ok resp ∧ status resp = 500 ∧
          data resp = ErrorData "An error occurred while creating the comment"
                                "Internal server error".
Proof.
  intros run.
  exists (mkResponse
            (ErrorData "An error occurred while creating the comment"
                       "Internal server error") 500).
  split; [vm_compute; reflexivity|]. split; [reflexivity|].
  destruct (server_error_detail_for_staff_only demo_repr
              (demo_request (Py.Int 1) (Py.Str "Great!")) demo_world_down
              eq_refl) as (_ & _ & Hpost & _).
  apply (Hpost _ run.2); [vm_compute; reflexivity|reflexivity].
Defined.

(** X6 at work: 599 seconds after a first call, with the store down. *)
Lemma getFilm_repeat_within_ttl_witness :
  let w1 := (FilmDetailView_get demo_get 2 demo_world).2 in
  let w2 := mkWorld demo_store (cache w1) 699 [Some "connection lost"] [] in
  FilmDetailView_get demo_get 2 w2
  = (Ok (mkResponse (FilmData (mkFilmView 2 "A New Hope" 721864 1)) 200), w2).
Proof.
  intros w1 w2.
  destruct (getFilm_repeat_within_ttl demo_get 2 demo_world
              (FilmData (mkFilmView 2 "A New Hope" 721864 1)) w1)
    as (expiry & _ & _ & Hexp & Hrepeat).
  - vm_compute. reflexivity.
  - rewrite (Hexp eq_refl) in Hrepeat.
    apply Hrepeat; [reflexivity|]. vm_compute. reflexivity.
Defined.

(** X7 at work: the detail of the catalog row 2, then a comment on the local film 1. *)
Lemma getFilm_stale_after_comment_witness :
  let w1 := (FilmDetailView_get demo_get 2 demo_world).2 in
  let w2 :=
    (CommentCreateView_post demo_repr
       (demo_request (Py.Int 1) (Py.Str "Best one!")) w1).2 in
  FilmDetailView_get demo_get 2 w2
  = (Ok (mkResponse (FilmData (mkFilmView 2 "A New Hope" 721864 1)) 200), w2) ∧
  comment_total (db w2) "A New Hope" = 2.
Proof.
  intros w1 w2.
  destruct (getFilm_stale_after_comment demo_repr demo_get 2 demo_world
              (FilmCache.mk 2 "2" "A New Hope" 721864 0)
              eq_refl eq_refl eq_refl)
    as (w1' & E & Hpost).
  assert (w1' = w1) as -> by (unfold w1; by rewrite E).
  destruct (Hpost (demo_request (Py.Int 1) (Py.Str "Best one!"))
              (mkResponse
                 (CommentData (mkCommentView 2 "Best one!" 100 "A New Hope"))
                 201)
              w2)
    as [Hstale Hcount].
  - vm_compute. reflexivity.
  - reflexivity.
  - split.
    + apply Hstale; [reflexivity|]. vm_compute. reflexivity.
    + apply (Hcount (Film.mk 1 "A New Hope" 721864 0)); reflexivity.
Defined.

(** X8 at work: the catalog row 2. *)
Lemma getFilm_agrees_with_listFilms_witness :
  ∃ v l w1 w2,
    FilmDetailView_get demo_get 2 demo_world
    = (Ok (mkResponse (FilmData v) 200), w1) ∧
    FilmsListView_get demo_get demo_world
    = (Ok (mkResponse (FilmListData l) 200), w2) ∧
    v ∈ l.
Proof.
  exact (getFilm_agrees_with_listFilms demo_get 2 demo_world
           (FilmCache.mk 2 "2" "A New Hope" 721864 0)
           eq_refl eq_refl eq_refl eq_refl).
Defined.

(** X10 at work: a comment on the second of two local films with one title. *)
Lemma comment_on_unresolved_film_not_listed_witness :
  let run :=
    CommentCreateView_post demo_repr
      (demo_request (Py.Int 2) (Py.Str "Great!")) demo_world_twins in
  comments (db run.2) = [Comments.mk 1 2 "Great!" 100] ∧
  films_list_of (db run.2) = [mkFilmView 1 "A New Hope" 721864 0].
Proof.
  intros run. split; [vm_compute; reflexivity|].
  rewrite (comment_on_unresolved_film_not_listed demo_repr
             (demo_request (Py.Int 2) (Py.Str "Great!")) demo_world_twins
             (mkResponse
                (CommentData (mkCommentView 1 "Great!" 100 "A New Hope")) 201)
             run.2).
  - vm_compute. reflexivity.
  - vm_compute. reflexivity.
  - reflexivity.
  - intros row g Hrow Hg.
    apply list_elem_of_singleton in Hrow. subst row.
    vm_compute in Hg. injection Hg as <-. discriminate.
Defined.

(** X11 at work: two requests without a film field. *)
Lemma createComment_checks_film_first_witness :
  CommentCreateView_post demo_repr
    (demo_request Py.None_ (Py.Str "Great!")) demo_world
  = CommentCreateView_post demo_repr
      (demo_request Py.None_ (Py.Str "")) demo_world.
Proof.
  apply createComment_checks_film_first.
  - vm_compute. reflexivity.
  - reflexivity.
  - intros film (Htruthy & _). vm_compute in Htruthy. discriminate.
Defined.

(** X13 at work: two records synced into the small instance. *)
Lemma sync_then_listFilms_witness :
  ∃ out w',
    Command_handle (inr demo_remote) demo_world = (Ok out, w') ∧
    ∃ v, v ∈ films_list_of (db w') ∧
         Some (fv_title v) = Some "The Empire Strikes Back" ∧
         Some (fv_release_date v) = Some 722952.
Proof.
  destruct (sync_then_listFilms demo_remote demo_world eq_refl
              demo_catalog_ok demo_remote_complete)
    as (out & w' & E & Hnext).
  exists out, w'. split; [exact E|].
  destruct (Hnext demo_get (mkWorld (db w') (cache w') 0 [] [])
              eq_refl eq_refl eq_refl) as [_ Hviews].
  exact (Hviews 1%nat
           (mkRemoteFilm (Some "The Empire Strikes Back") (Some 722952))
           eq_refl).
Defined.

(** X14 at work: the same two records synced twice. *)
Lemma sync_twice_updates_only_witness :
  ∃ out1 w1,
    Command_handle (inr demo_remote) demo_world = (Ok out1, w1) ∧
    ∃ out2 w3,
      Command_handle (inr demo_remote) (mkWorld (db w1) ∅ 200 [] [])
      = (Ok out2, w3) ∧
      row_key <$> film_caches (db w3) = row_key <$> film_caches (db w1).
Proof.
  destruct (sync_twice_updates_only demo_remote demo_world eq_refl
              demo_catalog_ok demo_remote_complete)
    as (out1 & w1 & E & Hagain).
  exists out1, w1. split; [exact E|].
  destruct (Hagain (mkWorld (db w1) ∅ 200 [] []) eq_refl eq_refl)
    as (out2 & w3 & E2 & _ & Hkeys).
  exists out2, w3. split; [exact E2|exact Hkeys].
Defined.

(** X15 at work: a second record without a title. *)
Lemma sync_stops_at_incomplete_record_witness :
  ∃ e w',
    Command_handle
      (inr [mkRemoteFilm (Some "A New Hope") (Some 721864);
            mkRemoteFilm None (Some 722952)]) demo_world
    = (Raise e, w') ∧
    exn_kind e = IntegrityError ∧ cache w' = cache demo_world.
Proof.
  destruct (sync_stops_at_incomplete_record
              [mkRemoteFilm (Some "A New Hope") (Some 721864)]
              (mkRemoteFilm None (Some 722952)) [] demo_world eq_refl
              demo_catalog_ok)
    as (e & w' & E & Hkind & Hca & _).
  - repeat constructor; simpl; eauto.
  - by left.
  - exists e, w'. split; [exact E|]. split; [exact Hkind|exact Hca].
Defined.

(** X17 at work: the film id 9 is unknown, the film 2 has no comments. *)
Lemma listComments_unknown_or_empty_witness :
  (∃ w', CommentsListView_get demo_get 9 demo_world
         = (Ok (CommentsError (not_found "Film with ID 9 does not exist")),
            w')) ∧
  (∃ w', CommentsListView_get demo_get 2 demo_world = (Ok (CommentsOk []), w')).
Proof.
  split.
  - exact (proj1 (listComments_unknown_or_empty demo_get 9 demo_world eq_refl)
             eq_refl).
  - exact (proj2 (listComments_unknown_or_empty demo_get 2 demo_world eq_refl)
             (Film.mk 2 "The Empire Strikes Back" 722952 0) eq_refl eq_refl).
Defined.

(** X18 at work: the one comment of the film 1. *)
Lemma listComments_lists_the_comments_of_the_film_witness :
  ∃ l w',
    CommentsListView_get demo_get 1 demo_world = (Ok (CommentsOk l), w') ∧
    l ≡ₚ [mkCommentRow 1 "Great!" 50 (Some "A New Hope")] ∧
    sorted_by_created_at l.
Proof.
  exact (listComments_lists_the_comments_of_the_film demo_get 1 demo_world
           (Film.mk 1 "A New Hope" 721864 0) eq_refl eq_refl).
Defined.

(** X19 at work: a comment on the film 1, then its list. *)
Lemma created_comment_is_listed_witness :
  let w1 :=
    (CommentCreateView_post demo_repr
       (demo_request (Py.Int 1) (Py.Str "Best one!")) demo_world).2 in
  ∃ l w3,
    CommentsListView_get demo_get 1 (mkWorld (db w1) (cache w1) 200 [] [])
    = (Ok (CommentsOk l), w3) ∧
    mkCommentRow 2 "Best one!" 100 (Some "A New Hope") ∈ l ∧
    length l = 2%nat.
Proof.
  intros w1.
  apply (created_comment_is_listed demo_repr
           (demo_request (Py.Int 1) (Py.Str "Best one!")) demo_world
           (mkResponse
              (CommentData (mkCommentView 2 "Best one!" 100 "A New Hope")) 201)
           w1 (mkCommentView 2 "Best one!" 100 "A New Hope") 1).
  - vm_compute. reflexivity.
  - reflexivity.
  - reflexivity.
  - reflexivity.
  - reflexivity.
  - reflexivity.
Defined.

(** X20 at work: the detail served from the cache that a first call filled. *)
Lemma getFilm_answers_a_film_view_witness :
  let w1 := (FilmDetailView_get demo_get 2 demo_world).2 in
  reachable demo_repr w1 ∧
  ∃ view, (FilmDetailView_get demo_get 2 w1).1
          = Ok (mkResponse (FilmData view) 200).
Proof.
  intros w1.
  assert (reachable demo_repr w1) as Hreach.
  { apply (reachable_step demo_repr demo_world w1).
    - by apply reachable_init.
    - by apply (step_detail demo_repr demo_get 2 demo_world
                  (FilmDetailView_get demo_get 2 demo_world).1). }
  split; [exact Hreach|].
  destruct (getFilm_answers_a_film_view demo_repr w1 demo_get 2
              (mkResponse (FilmData (mkFilmView 2 "A New Hope" 721864 1)) 200)
              w1 Hreach)
    as (view & Hview).
  - vm_compute. reflexivity.
  - reflexivity.
  - exists view. simpl in Hview. rewrite <- Hview. vm_compute. reflexivity.
Defined.
